(** * tfjs-core ops: broadcastTo, transpose, multinomial

    A shallow embedding of the argument checks and the shape arithmetic of
    three ops of tfjs-core/src/ops, with the properties their
    specification states.

    - [broadcastTo_]: NumPy-style broadcast of a tensor to a target shape;
      the specification calls its shape arithmetic [resolve].
    - [transpose_]: permutation of the axes of a tensor.
    - [multinomial_]: samples drawn from a multinomial distribution.

    Four more ops are embedded in module [Ops], with kernels and errors
    of their own: [maxPool3d_], [avgPool3dGrad_], [bincount_], [erf_].

    JavaScript numbers are modelled by the rationals [Q]: every finite
    double is a rational, and the ops below only compare numbers and copy
    them.  [===] on numbers is [Qeq_bool]; NaN and the infinities are not
    represented.

    The file has two parts: the embedding, then its properties. *)

From Stdlib Require Import ZArith QArith Lia.
From stdpp Require Import base list strings.

Open Scope Q_scope.

(** ** Numbers *)

Module Num.

(** The type of JavaScript numbers. *)
Abbreviation number := Q (only parsing).

(** [Number.isInteger(d)] on a finite number. *)
Definition isInteger (d : number) : bool :=
  (Qnum d mod Zpos (Qden d) =? 0)%Z.

(** [a === b] where either side may be [undefined] (an array read out
    of range): [undefined] is only equal to itself. *)
Definition strict_eq (a b : option number) : bool :=
  match a, b with
  | Some x, Some y => Qeq_bool x y
  | None, None => true
  | _, _ => false
  end.

(** [a > b] on numbers. *)
Definition gtb (a b : number) : bool := negb (Qle_bool a b).

(** [a >= b] on numbers. *)
Definition geb (a b : number) : bool := Qle_bool b a.

(** [a < b] on numbers. *)
Definition ltb (a b : number) : bool := negb (Qle_bool b a).

Definition of_nat (n : nat) : number := inject_Z (Z.of_nat n).

End Num.
Export Num.

(** ** Errors and results *)

(** The dtype of a tensor. *)
Inductive DataType : Type :=
| float32 | int32 | bool_ | complex64 | string_.

#[global] Instance DataType_eq_dec : EqDecision DataType.
Proof. solve_decision. Defined.

(** The [Error]s the three ops throw, each carrying what its message
    reports. *)
Inductive Error : Type :=
(* assertNonNegativeIntegerDimensions: the offending shape *)
| NonNegativeIntegerDimensions (shape : list number)
(* broadcastTo(): shape.length=${shape.length} < input.rank=${input.rank}. *)
| RankMismatch (shapeLength inputRank : nat)
(* broadcastTo(): [${xShape}] cannot be broadcast to [${shape}]. *)
| IncompatibleShapes (xShape shape : list number)
(* Error in transpose: rank of input ${rank} must match length of perm ${perm}. *)
| TransposeRank (rank : nat) (perm : list number)
(* All entries in 'perm' must be between 0 and ${rank - 1} but got ${perm} *)
| TransposePermRange (rank : nat) (perm : list number)
(* Error in multinomial: you need at least 2 outcomes, but got ${numOutcomes}. *)
| MultinomialOutcomes (numOutcomes : number)
(* Rank of probabilities must be 1 or 2, but is ${origRank} *)
| MultinomialRank (origRank : nat)
(* a property read on a reference that holds no array *)
| TypeError
(* Argument '${argName}' passed to '${functionName}' must be numeric
   tensor, but got ${actualDType} tensor *)
| ArgumentDtype (argName functionName : string) (actualDType : DataType).

Inductive result (A : Type) : Type :=
| Ok (a : A)
| Throw (e : Error).
Arguments Ok {A} a.
Arguments Throw {A} e.

#[global] Instance result_ret : MRet result := @Ok.

#[global] Instance result_bind : MBind result := λ A B k r,
  match r with
  | Ok a => k a
  | Throw e => Throw e
  end.

(** Modelled from the spec: [util.assert] comes from ../util, which is not
    among the sources.  As its call sites use it: nothing happens when the
    condition holds, and an [Error] with the given message is thrown when
    it does not. *)
Definition assert (cond : bool) (msg : Error) : result unit :=
  if cond then Ok tt else Throw msg.

(** [l.forEach(f)] where [f] may throw: the first throw ends the walk. *)
Fixpoint forEach {A} (f : A → result unit) (l : list A) : result unit :=
  match l with
  | [] => Ok tt
  | a :: l' => f a ;; forEach f l'
  end.

(** ** Shapes *)

(** The spec's [Shape]: every extent is a non-negative integer. *)
Definition valid_extent (dimSize : number) : bool :=
  isInteger dimSize && geb dimSize 0.

Definition valid_shape (shape : list number) : Prop :=
  Forall (λ d, valid_extent d = true) shape.

(** Modelled from the spec: [assertNonNegativeIntegerDimensions] is
    imported from ../util_base, which is not among the sources.  The spec's
    data model requires of a broadcast target that "every axis extent is a
    non-negative integer"; the assertion throws, reporting the shape,
    unless that holds. *)
Definition assertNonNegativeIntegerDimensions (shape : list number)
  : result unit :=
  forEach (λ dimSize,
    assert (valid_extent dimSize) (NonNegativeIntegerDimensions shape)) shape.

(** Modelled from the spec: [sizeFromShape] (../util_base) is not among
    the sources; the number of elements of a tensor is the product of its
    extents. *)
Definition sizeFromShape (shape : list number) : number :=
  foldr Qmult 1 shape.

(** ** Tensors and the engine *)

(** Modelled from the spec: [Tensor] (../tensor) is not among the sources.
    "Tensor (external): owns a shape and a dtype; immutable value
    semantics from this layer's perspective."  [values] are the elements
    in row-major order. *)
Record Tensor : Type := mkTensor {
  shape : list number;
  dtype : DataType;
  values : list number;
}.

(** [t.rank] and [t.size]. *)
Definition rank (t : Tensor) : nat := length (shape t).
Definition size (t : Tensor) : number := sizeFromShape (shape t).

(** Modelled from the spec: [convertToTensor] (../tensor_util_env) is not
    among the sources.  It is how these ops "validate arguments": a value
    that is a tensor is returned as it is once its dtype has been checked
    against the expected one, which is 'numeric' when the caller names
    none, as at every call below; a string tensor is not numeric.  (An
    op that takes string tensors has to say so: [less_] passes
    'string_or_numeric'.)  A value that is not yet a tensor stands here
    for the tensor it is turned into. *)
Definition convertToTensor (x : Tensor) (argName functionName : string)
  : result Tensor :=
  match dtype x with
  | string_ => Throw (ArgumentDtype argName functionName (dtype x))
  | _ => Ok x
  end.

(** Modelled from the spec: [clone] (./clone) is not among the sources.
    It yields "a no-op copy": a tensor with the shape, dtype and values of
    its argument. *)
Definition clone (x : Tensor) : Tensor :=
  {| shape := shape x; dtype := dtype x; values := values x |}.

(** Modelled from the spec: [reshape] (./reshape) is not among the
    sources.  The spec's step 1 describes it: the same data under another
    shape, "no data movement needed".  Its call sites also rely on one
    [-1] extent standing for whatever keeps the size unchanged
    ([reshape($logits, [1, -1])]). *)
Definition inferFromImplicitShape (newShape : list number) (sz : number)
  : list number :=
  let known := List.filter (λ d, negb (Qeq_bool d (-1))) newShape in
  map (λ d, if Qeq_bool d (-1) then sz / sizeFromShape known else d) newShape.

Definition reshape (x : Tensor) (newShape : list number) : Tensor :=
  {| shape := inferFromImplicitShape newShape (size x);
     dtype := dtype x;
     values := values x |}.

(** The kernels these ops dispatch, and their attributes. *)
Inductive KernelName : Type := Tile | Transpose | Multinomial.

Inductive Attrs : Type :=
| TileAttrs (reps : list number)
| TransposeAttrs (perm : list number)
| MultinomialAttrs (numSamples seed : number) (normalized : bool).

(** One [ENGINE.runKernel] call: kernel name, input tensor, attributes. *)
Inductive Dispatch : Type :=
| RunKernel (kernelName : KernelName) (inputs : Tensor) (attrs : Attrs).

(** An op yields a tensor or throws, and leaves the list of the
    [ENGINE.runKernel] calls its own body has made, in their order.  What
    [clone] and [reshape] run inside is not in that list. *)
Definition Op (A : Type) : Type := (list Dispatch * result A)%type.

#[global] Instance KernelName_eq_dec : EqDecision KernelName.
Proof. solve_decision. Defined.

Definition kernel_of (d : Dispatch) : KernelName :=
  match d with RunKernel kernelName _ _ => kernelName end.

(** The calls of one kernel among the calls made. *)
Definition calls (k : KernelName) (t : list Dispatch) : list Dispatch :=
  filter (λ d, kernel_of d = k) t.

#[global] Instance Op_ret : MRet Op := λ A a, ([], Ok a).

#[global] Instance Op_bind : MBind Op := λ A B k m,
  match m with
  | (t, Ok a) => let '(t', r) := k a in (t ++ t', r)
  | (t, Throw e) => (t, Throw e)
  end.

Definition throw {A} (e : Error) : Op A := ([], Throw e).

Definition lift {A} (r : result A) : Op A := ([], r).

(** Modelled from the spec: the engine (../engine) and the ops [real],
    [imag], [neg] and [complex] are not among the sources.  The spec's Op
    Dispatcher "accepts a logical operation name, input tensors, and
    attributes, returns an output tensor"; [kernel] is that tensor.  The
    four ops are left abstract. *)
Class Engine : Type := {
  kernel : KernelName → Tensor → Attrs → Tensor;
  real : Tensor → Op Tensor;
  imag : Tensor → Op Tensor;
  neg : Tensor → Op Tensor;
  complex : Tensor → Tensor → Op Tensor;
}.

(** [ENGINE.runKernel(kernelName, inputs, attrs)]. *)
Definition runKernel `{Engine} (kernelName : KernelName) (inputs : Tensor)
    (attrs : Attrs) : Op Tensor :=
  ([RunKernel kernelName inputs attrs], Ok (kernel kernelName inputs attrs)).

(** ** Arrays as objects

    Shapes are JavaScript arrays: objects that are passed by reference and
    updated in place ([unshift], [reps[i] = 1]).  The store below holds
    the arrays; a reference is an index into it and a new array is put at
    the end. *)

Module Arrays.

Abbreviation ref := nat (only parsing).
Abbreviation store := (list (list Q)) (only parsing).

(** A computation over the store that returns or throws. *)
Definition St (A : Type) : Type := store → store * result A.

#[global] Instance St_ret : MRet St := λ A a h, (h, Ok a).

#[global] Instance St_bind : MBind St := λ A B k m h,
  match m h with
  | (h', Ok a) => k a h'
  | (h', Throw e) => (h', Throw e)
  end.

Definition throw_st {A} (e : Error) : St A := λ h, (h, Throw e).

Definition lift_st {A} (r : result A) : St A := λ h, (h, r).

(** The array a reference stands for. *)
Definition deref (r : ref) : St (list number) := λ h,
  match h !! r with
  | Some a => (h, Ok a)
  | None => (h, Throw TypeError)
  end.

Definition new_array (a : list number) : St ref := λ h,
  (h ++ [a], Ok (length h)).

Definition assign (r : ref) (a : list number) : St unit := λ h,
  (<[r:=a]> h, Ok tt).

(** [a.length] *)
Definition length_of (r : ref) : St nat :=
  a ← deref r; mret (length a).

(** [a[i]] *)
Definition index (r : ref) (i : nat) : St (option number) :=
  a ← deref r; mret (a !! i).

(** [a[i] = v] for [i] below [a.length] *)
Definition set_index (r : ref) (i : nat) (v : number) : St unit :=
  a ← deref r; assign r (<[i:=v]> a).

(** [a.slice()]: a new array with the elements of [a]. *)
Definition slice (r : ref) : St ref :=
  a ← deref r; new_array a.

(** [Array.from(a)]: a new array with the elements of [a]. *)
Definition Array_from (r : ref) : St ref :=
  a ← deref r; new_array a.

(** [a.unshift(v)]: [v] is put in front, in place. *)
Definition unshift (r : ref) (v : number) : St unit :=
  a ← deref r; assign r (v :: a).

(** [a.map((v, i) => f(v, i))]: a new array; [a] is only read. *)
Definition Array_map (f : number → nat → number) (r : ref) : St ref :=
  a ← deref r; new_array (imap (λ i v, f v i) a).

(** [a.filter(p)]: a new array; [a] is only read. *)
Definition Array_filter (p : number → bool) (r : ref) : St ref :=
  a ← deref r; new_array (List.filter p a).

End Arrays.

(** ** broadcastTo *)

Module BroadcastTo.
Import Arrays.

(** Lines 59-61: [while (newShape.length < shape.length) newShape.unshift(1)].
    Each turn of the loop takes one unit of [fuel]. *)
Fixpoint unshift_loop (fuel : nat) (newShape : list number) (n : nat)
  : list number :=
  match fuel with
  | O => newShape
  | S fuel' =>
      if (length newShape <? n)%nat
      then unshift_loop fuel' (1 :: newShape) n
      else newShape
  end.

(** Lines 57-65: the shape of [input] once its rank has been raised to
    [shape.length]; with equal ranks [input] is left as it is.  The loop
    adds one axis per turn, so [shape.length] turns are enough. *)
Definition padShape (xShape shape : list number) : list number :=
  if (length xShape <? length shape)%nat
  then unshift_loop (length shape) xShape (length shape)
  else xShape.

(** Lines 67-74: [for (let i = shape.length - 1; i >= 0; i--)].  The
    argument [n] is [i + 1]: the loop is entered with [n = shape.length]
    and visits the axes [n-1, n-2, ..., 0] in that order.  [reps] has
    [shape.length] entries, so the write [reps[i] = 1] is in range. *)
Fixpoint reps_loop (xShape inputShape shape : list number) (n : nat)
    (reps : list number) : result (list number) :=
  match n with
  | O => Ok reps
  | S i =>
      if strict_eq (inputShape !! i) (shape !! i)
      then reps_loop xShape inputShape shape i (<[i:=1]> reps)
      else if negb (strict_eq (inputShape !! i) (Some 1))
      then Throw (IncompatibleShapes xShape shape)
      else reps_loop xShape inputShape shape i reps
  end.

(** The shape arithmetic of [broadcastTo_], lines 48-74, as a function
    of the two shapes: the spec's [resolve(sourceShape, targetShape)]. *)
Definition resolve (xShape shape : list number) : result (list number) :=
  assertNonNegativeIntegerDimensions shape ;;
  if (length shape <? length xShape)%nat
  then Throw (RankMismatch (length shape) (length xShape))
  else
    let inputShape := padShape xShape shape in
    let reps := shape in
    reps_loop xShape inputShape shape (length shape) reps.

(** Line 75: [reps.map((n, i) => n > 1 ? i : -1).filter(i => i >= 0)]. *)
Definition tiling_axes (reps : list number) : list number :=
  List.filter (λ i, geb i 0)
              (imap (λ i n, if gtb n 1 then of_nat i else -1) reps).

(** [broadcastTo_], lines 45-87.  Line 47 names the argument
    'broadcastTo' and the function 'x'. *)
Definition broadcastTo_ `{Engine} (x : Tensor) (shape_ : list number)
  : Op Tensor :=
  input ← lift (convertToTensor x "broadcastTo" "x");
  let xShape := shape input in
  lift (assertNonNegativeIntegerDimensions shape_) ;;
  if (length shape_ <? rank input)%nat
  then throw (RankMismatch (length shape_) (rank input))
  else
    let input :=
      if (rank input <? length shape_)%nat
      then
        let newShape := shape input in
        let newShape := unshift_loop (length shape_) newShape (length shape_) in
        reshape input newShape
      else input in
    let inputShape := shape input in
    reps ← lift (reps_loop xShape inputShape shape_ (length shape_) shape_);
    let axes := tiling_axes reps in
    if (length axes =? 0)%nat
    then mret (clone input)
    else runKernel Tile input (TileAttrs reps).

(** *** The same lines over the store

    [xShape] and [shape] are references to the caller's arrays.  With equal
    ranks [inputShape] is the very array [xShape]; otherwise it is the
    copy made by [slice].  [reps] is the copy made by [Array.from]. *)

Fixpoint unshift_loop_st (fuel : nat) (newShape : ref) (n : nat) : St unit :=
  match fuel with
  | O => mret tt
  | S fuel' =>
      len ← length_of newShape;
      if (len <? n)%nat
      then unshift newShape 1 ;; unshift_loop_st fuel' newShape n
      else mret tt
  end.

Fixpoint reps_loop_st (xShape inputShape shape reps : ref) (n : nat)
  : St unit :=
  match n with
  | O => mret tt
  | S i =>
      a ← index inputShape i;
      b ← index shape i;
      if strict_eq a b
      then set_index reps i 1 ;; reps_loop_st xShape inputShape shape reps i
      else if negb (strict_eq a (Some 1))
      then
        xs ← deref xShape;
        s ← deref shape;
        throw_st (IncompatibleShapes xs s)
      else reps_loop_st xShape inputShape shape reps i
  end.

Definition resolve_st (xShape shape : ref) : St ref :=
  s ← deref shape;
  lift_st (assertNonNegativeIntegerDimensions s) ;;
  shapeLength ← length_of shape;
  inputRank ← length_of xShape;
  if (shapeLength <? inputRank)%nat
  then throw_st (RankMismatch shapeLength inputRank)
  else
    inputShape ←
      (if (inputRank <? shapeLength)%nat
       then
         newShape ← slice xShape;
         unshift_loop_st shapeLength newShape shapeLength ;;
         mret newShape
       else mret xShape);
    reps ← Array_from shape;
    reps_loop_st xShape inputShape shape reps shapeLength ;;
    mret reps.

(** Line 75 over the store: [map] and [filter] each make a new array. *)
Definition tiling_axes_st (reps : ref) : St ref :=
  mapped ← Array_map (λ n i, if gtb n 1 then of_nat i else -1) reps;
  Array_filter (λ i, geb i 0) mapped.

(** Lines 48-75: the repetitions, then the axes to tile. *)
Definition resolve_axes_st (xShape shape : ref) : St (ref * ref) :=
  reps ← resolve_st xShape shape;
  axes ← tiling_axes_st reps;
  mret (reps, axes).

End BroadcastTo.

(** ** transpose *)

Module TransposeOp.

(** Line 58: [$x.shape.map((s, i) => i).reverse()]. *)
Definition default_perm (x : Tensor) : list number :=
  reverse (imap (λ i _, of_nat i) (shape x)).

(** [transpose_], lines 53-98.  An absent [perm] ([perm == null]) is
    [None]; an absent [conjugate] is [false].  [tidy] only frees
    intermediate tensors and is left out. *)
Definition transpose_ `{Engine} (x : Tensor) (perm : option (list number))
    (conjugate : bool) : Op Tensor :=
  x ← lift (convertToTensor x "x" "transpose");
  let perm :=
    match perm with
    | None => default_perm x
    | Some perm => perm
    end in
  lift (assert (rank x =? length perm)%nat (TransposeRank (rank x) perm)) ;;
  lift (forEach (λ axis,
          assert (geb axis 0 && ltb axis (of_nat (rank x)))
                 (TransposePermRange (rank x) perm)) perm) ;;
  if (rank x <=? 1)%nat
  then mret (clone x)
  else
    let attrs := TransposeAttrs perm in
    match dtype x with
    | complex64 =>
        re ← real x;
        im ← imag x;
        re ← runKernel Transpose re attrs;
        im ← runKernel Transpose im attrs;
        im ← (if conjugate then neg im else mret im);
        complex re im
    | _ => runKernel Transpose x attrs
    end.

(** An axis the range check of [transpose_] lets through. *)
Definition axis_in_range (x : Tensor) (axis : number) : Prop :=
  0 <= axis ∧ axis < of_nat (rank x).

End TransposeOp.

(** ** multinomial *)

Module MultinomialOp.

(** [multinomial_], lines 244-276.  An absent [seed] is [None];
    [random] is the number [Math.random()] returns when it is called. *)
Definition multinomial_ `{Engine} (logits : Tensor) (numSamples : number)
    (seed : option number) (normalized : bool) (random : number)
  : Op Tensor :=
  logits ← lift (convertToTensor logits "logits" "multinomial");
  let numOutcomes := size logits in
  let origRank := rank logits in
  if ltb numOutcomes 2
  then throw (MultinomialOutcomes numOutcomes)
  else if (2 <? origRank)%nat
  then throw (MultinomialRank origRank)
  else
    let seed :=
      match seed with
      | Some s => if Qeq_bool s 0 then random else s
      | None => random
      end in
    let logits2D :=
      if (origRank =? 1)%nat then reshape logits [1; -1] else logits in
    let attrs := MultinomialAttrs numSamples seed normalized in
    res ← runKernel Multinomial logits2D attrs;
    if (origRank =? 1)%nat then mret (reshape res [size res]) else mret res.

End MultinomialOp.

(** ** An engine to run the ops on

    A small backend to run the ops on concrete tensors.  Each kernel
    answers a tensor of the shape its op promises; the values are not
    computed. *)

Module Backend.

Definition tile_shape (s reps : list number) : list number :=
  zip_with Qmult s reps.

Definition permute_shape (s perm : list number) : list number :=
  map (λ p, default 0 (s !! Z.to_nat (Qnum p))) perm.

Definition run (k : KernelName) (x : Tensor) (a : Attrs) : Tensor :=
  match k, a with
  | Tile, TileAttrs reps =>
      {| shape := tile_shape (shape x) reps; dtype := dtype x;
         values := values x |}
  | Transpose, TransposeAttrs perm =>
      {| shape := permute_shape (shape x) perm; dtype := dtype x;
         values := values x |}
  | Multinomial, MultinomialAttrs numSamples _ _ =>
      {| shape := [default 1 (shape x !! 0%nat); numSamples]; dtype := int32;
         values := [] |}
  | _, _ => x
  end.

Definition engine : Engine :=
  {| kernel := run;
     real := λ x, mret x;
     imag := λ x, mret x;
     neg := λ x, mret x;
     complex := λ re _, mret re |}.

(** Tensors and a store to run examples on. *)
Definition vector3 : Tensor :=
  {| shape := [3]; dtype := float32; values := [7; 8; 9] |}.

Definition matrix23 : Tensor :=
  {| shape := [2; 3]; dtype := float32; values := [1; 2; 3; 4; 5; 6] |}.

Definition probs : Tensor :=
  {| shape := [2]; dtype := float32; values := [3 # 4; 1 # 4] |}.

Definition two_shapes : list (list Q) := [[3]; [2; 3]].

Definition no_words : Tensor :=
  {| shape := [0]; dtype := string_; values := [] |}.

Definition unit_row : Tensor :=
  {| shape := [1; 3]; dtype := float32; values := [7; 8; 9] |}.

End Backend.

(** ** maxPool3d, avgPool3dGrad, bincount and erf

    These ops run kernels of their own, with several input tensors and
    with attributes of their own, and throw errors of their own. *)

Module Ops.

Inductive Kernel : Type := MaxPool3D | AvgPool3DGrad | Bincount | Erf.

(** [[number, number, number]|number] *)
Inductive Size3 : Type :=
| Single (n : number)
| Triple (a b c : number).

(** ['valid'|'same'|number] *)
Inductive Pad : Type := PadValid | PadSame | PadNumber (n : number).

(** ['floor'|'round'|'ceil'] *)
Inductive RoundingMode : Type := Floor | Round | Ceil.

(** ['NDHWC'|'NCDHW'] *)
Inductive DataFormat : Type := NDHWC | NCDHW.

(** The op a check of conv_util is made for. *)
Inductive OpDesc : Type := maxPool3d | avgPool3dGrad.

Inductive Inputs : Type :=
| MaxPool3DInputs (x : Tensor)
| AvgPool3DGradInputs (dy input : Tensor)
| BincountInputs (x weights : Tensor)
| ErfInputs (x : Tensor).

Inductive KernelAttrs : Type :=
| MaxPool3DAttrs (filterSize strides : Size3) (pad : Pad)
    (dimRoundingMode : option RoundingMode) (dataFormat : DataFormat)
| AvgPool3DGradAttrs (filterSize strides : Size3) (pad : Pad)
    (dimRoundingMode : option RoundingMode)
(* {size} *)
| BincountAttrs (size_ : number)
(* runKernel(Erf, inputs): no attributes *)
| NoAttrs.

Inductive Failure : Type :=
(* Error in maxPool3d: x must be rank 5 but got rank ${x5D.rank}. *)
| MaxPool3dRank (rank : nat)
(* Error in maxPool3d: Only NDHWC is currently supported, but got
   dataFormat of ${dataFormat} *)
| MaxPool3dDataFormat (dataFormat : DataFormat)
(* Error in avgPool3dGrad: dy must be rank 5 but got rank ${dy5D.rank}. *)
| AvgPool3dGradDyRank (rank : nat)
(* Error in avgPool3dGrad: input must be rank 5 but got rank ${input5D.rank}. *)
| AvgPool3dGradInputRank (rank : nat)
(* Error in bincount: input dtype must be int32, but got ${$x.dtype} *)
| BincountDtype (dtype : DataType)
(* size must be non-negative, but got ${size}. *)
| BincountSize (size_ : number)
(* Error in bincount: weights must have the same size as input or 0-length,
   but got input shape: ${$x.shape}, weights shape: ${$weights.shape}. *)
| BincountWeights (xShape weightsShape : list number)
(* Input dtype must be `int32` or `float32`. *)
| ErfDtype
(* Argument '${argName}' passed to '${functionName}' must be numeric
   tensor, but got ${actualDType} tensor *)
| NotNumeric (argName functionName : string) (actualDType : DataType)
(* what checkPadOnDimRoundingMode throws *)
| PadOnDimRoundingMode (opDesc : OpDesc) (pad : Pad) (mode : RoundingMode)
(* what reshape throws *)
| ReshapeInvalid (newShape : list (option number)).

Inductive outcome (A : Type) : Type :=
| Returns (a : A)
| Throws (f : Failure).
Arguments Returns {A} a.
Arguments Throws {A} f.

(** One [ENGINE.runKernel] call. *)
Inductive Call : Type :=
| Ran (kernelName : Kernel) (inputs : Inputs) (attrs : KernelAttrs).

(** What an op does: the [ENGINE.runKernel] calls its own body makes, in
    their order, and how it ends.  What [reshape] runs inside is not in
    that list. *)
Definition Run (A : Type) : Type := (list Call * outcome A)%type.

#[global] Instance Kernel_eq_dec : EqDecision Kernel.
Proof. solve_decision. Defined.

Definition kernel_of (c : Call) : Kernel :=
  match c with Ran kernelName _ _ => kernelName end.

(** The calls of one kernel among the calls made. *)
Definition calls (k : Kernel) (t : list Call) : list Call :=
  filter (λ c, kernel_of c = k) t.

#[global] Instance Run_ret : MRet Run := λ A a, ([], Returns a).

#[global] Instance Run_bind : MBind Run := λ A B k m,
  match m with
  | (t, Returns a) => let '(t', r) := k a in (t ++ t', r)
  | (t, Throws f) => (t, Throws f)
  end.

Definition lift {A} (r : outcome A) : Run A := ([], r).

(** Modelled from the spec: [util.assert] (../util) is not among the
    sources; as [assert] above, for the errors of these ops. *)
Definition assert (cond : bool) (msg : Failure) : Run unit :=
  if cond then mret tt else ([], Throws msg).

(** Modelled from the spec: the engine (../engine), [cast] (./cast) and
    [checkPadOnDimRoundingMode] (./conv_util) are not among the sources.
    [kernel] is the tensor the Op Dispatcher "returns" for an operation
    name, input tensors and attributes; the other two are left
    abstract. *)
Class Dispatcher : Type := {
  kernel : Kernel → Inputs → KernelAttrs → Tensor;
  cast : Tensor → DataType → Run Tensor;
  checkPadOnDimRoundingMode :
    OpDesc → Pad → option RoundingMode → outcome unit;
}.

(** [ENGINE.runKernel(kernelName, inputs, attrs)]. *)
Definition runKernel `{Dispatcher} (kernelName : Kernel) (inputs : Inputs)
    (attrs : KernelAttrs) : Run Tensor :=
  ([Ran kernelName inputs attrs], Returns (kernel kernelName inputs attrs)).

(** Modelled from the spec: [convertToTensor], as above, for the errors
    of these ops. *)
Definition convertToTensor (x : Tensor) (argName functionName : string)
  : Run Tensor :=
  match dtype x with
  | string_ => ([], Throws (NotNumeric argName functionName (dtype x)))
  | _ => mret x
  end.

(** [t.shape[i]]: [None] is [undefined]. *)
Definition extent (t : Tensor) (i : nat) : option number := shape t !! i.

(** Modelled from the spec: [reshape] (./reshape) is not among the
    sources.  It is [reshape] above, "the same data under another shape",
    applied to an array literal whose entries are read from a shape and
    may be [undefined].  A shape with an undefined extent, or one that
    does not hold the elements of the tensor, is not a shape for the same
    data: [reshape] then throws. *)
Definition reshape_to (x : Tensor) (newShape : list (option number))
  : outcome Tensor :=
  match mapM id newShape with
  | Some s =>
      if Qeq_bool (sizeFromShape (inferFromImplicitShape s (size x))) (size x)
      then Returns (reshape x s)
      else Throws (ReshapeInvalid newShape)
  | None => Throws (ReshapeInvalid newShape)
  end.

(** [maxPool3d_].  An absent [filterSize] is [[1, 1, 1]] and an absent
    [dataFormat] is ['NDHWC']. *)
Definition maxPool3d_ `{Dispatcher} (x : Tensor) (filterSize : option Size3)
    (strides : Size3) (pad : Pad) (dimRoundingMode : option RoundingMode)
    (dataFormat : option DataFormat) : Run Tensor :=
  let filterSize := default (Triple 1 1 1) filterSize in
  let dataFormat := default NDHWC dataFormat in
  x ← convertToTensor x "x" "maxPool3d";
  '(x5D, reshapedTo5D) ←
    (if (rank x =? 4)%nat
     then
       x5D ← lift (reshape_to x [Some 1; extent x 0; extent x 1;
                                 extent x 2; extent x 3]);
       mret (x5D, true)
     else mret (x, false)) : Run (Tensor * bool);
  assert (rank x5D =? 5)%nat (MaxPool3dRank (rank x5D)) ;;
  assert (match dataFormat with NDHWC => true | NCDHW => false end)
         (MaxPool3dDataFormat dataFormat) ;;
  lift (checkPadOnDimRoundingMode maxPool3d pad dimRoundingMode) ;;
  let inputs := MaxPool3DInputs x5D in
  let attrs :=
    MaxPool3DAttrs filterSize strides pad dimRoundingMode dataFormat in
  res ← runKernel MaxPool3D inputs attrs;
  if reshapedTo5D : bool
  then lift (reshape_to res [extent res 1; extent res 2;
                             extent res 3; extent res 4])
  else mret res.

(** [avgPool3dGrad_]. *)
Definition avgPool3dGrad_ `{Dispatcher} (dy input : Tensor)
    (filterSize strides : Size3) (pad : Pad)
    (dimRoundingMode : option RoundingMode) : Run Tensor :=
  dy ← convertToTensor dy "dy" "avgPool3dGrad";
  input ← convertToTensor input "input" "avgPool3dGrad";
  '(dy5D, input5D, reshapedTo5D) ←
    (if (rank input =? 4)%nat
     then
       dy5D ← lift (reshape_to dy [Some 1; extent dy 0; extent dy 1;
                                   extent dy 2; extent dy 3]);
       input5D ← lift (reshape_to input [Some 1; extent input 0;
                         extent input 1; extent input 2; extent input 3]);
       mret (dy5D, input5D, true)
     else mret (dy, input, false)) : Run (Tensor * Tensor * bool);
  assert (rank dy5D =? 5)%nat (AvgPool3dGradDyRank (rank dy5D)) ;;
  assert (rank input5D =? 5)%nat (AvgPool3dGradInputRank (rank input5D)) ;;
  lift (checkPadOnDimRoundingMode avgPool3dGrad pad dimRoundingMode) ;;
  let inputs := AvgPool3DGradInputs dy5D input5D in
  let attrs := AvgPool3DGradAttrs filterSize strides pad dimRoundingMode in
  res ← runKernel AvgPool3DGrad inputs attrs;
  if reshapedTo5D : bool
  then lift (reshape_to res [extent res 1; extent res 2;
                             extent res 3; extent res 4])
  else mret res.

(** [bincount_]. *)
Definition bincount_ `{Dispatcher} (x weights : Tensor) (size_ : number)
  : Run Tensor :=
  x ← convertToTensor x "x" "bincount";
  weights ← convertToTensor weights "weights" "bincount";
  assert (match dtype x with int32 => true | _ => false end)
         (BincountDtype (dtype x)) ;;
  assert (geb size_ 0) (BincountSize size_) ;;
  assert (Qeq_bool (size weights) (size x) || Qeq_bool (size weights) 0)
         (BincountWeights (shape x) (shape weights)) ;;
  let inputs := BincountInputs x weights in
  let attrs := BincountAttrs size_ in
  runKernel Bincount inputs attrs.

(** [erf_]. *)
Definition erf_ `{Dispatcher} (x : Tensor) : Run Tensor :=
  x ← convertToTensor x "x" "erf";
  assert (match dtype x with int32 | float32 => true | _ => false end)
         ErfDtype ;;
  x ← (match dtype x with
       | int32 => cast x float32
       | _ => mret x
       end);
  let inputs := ErfInputs x in
  runKernel Erf inputs NoAttrs.

(** A small dispatcher to run these ops on concrete tensors: the pooling
    kernels answer their (first) input, [cast] relabels the dtype, and
    the check of conv_util lets everything through. *)
Definition answer (k : Kernel) (i : Inputs) (a : KernelAttrs) : Tensor :=
  match i with
  | MaxPool3DInputs x => x
  | AvgPool3DGradInputs dy input => input
  | BincountInputs x weights =>
      {| shape := [match a with BincountAttrs n => n | _ => 0 end];
         dtype := dtype weights; values := [] |}
  | ErfInputs x => x
  end.

Definition dispatcher : Dispatcher :=
  {| kernel := answer;
     cast := λ x d,
       mret {| shape := shape x; dtype := d; values := values x |};
     checkPadOnDimRoundingMode := λ _ _ _, Returns tt |}.

Definition volume : Tensor :=
  {| shape := [1; 2; 2; 1]; dtype := float32; values := [1; 2; 3; 4] |}.

Definition five : Tensor :=
  {| shape := [1; 1; 2; 2; 1]; dtype := float32; values := [1; 2; 3; 4] |}.

Definition counts : Tensor :=
  {| shape := [3]; dtype := int32; values := [0; 2; 2] |}.

Definition labels : Tensor :=
  {| shape := [0]; dtype := string_; values := [] |}.

Definition no_weights : Tensor :=
  {| shape := [0]; dtype := float32; values := [] |}.

End Ops.

(** ** Proof automation *)

Ltac solve_length :=
  rewrite ?length_insert, ?length_replicate; lia.

(** * Properties *)

Section NumberFacts.

Lemma strict_eq_Some (x y : number) :
  strict_eq (Some x) (Some y) = true ↔ x == y.
Proof. apply Qeq_bool_iff. Qed.

Lemma strict_eq_Some_false (x y : number) :
  strict_eq (Some x) (Some y) = false ↔ ¬ x == y.
Proof.
  rewrite <- strict_eq_Some. destruct (strict_eq (Some x) (Some y)); split; congruence.
Qed.

(** [isInteger] holds of the numbers that are integers, whatever the
    fraction that stands for them. *)
Lemma isInteger_spec (d : number) :
  isInteger d = true ↔ ∃ z : Z, d == inject_Z z.
Proof.
  destruct d as [a b]. unfold isInteger, Qeq, inject_Z. cbn [Qnum Qden].
  rewrite Z.eqb_eq. split.
  - intros Hmod. exists (a / Z.pos b)%Z.
    rewrite Z.mul_1_r, Z.mul_comm. by apply Z.div_exact.
  - intros [z Hz]. rewrite Z.mul_1_r in Hz. rewrite Hz.
    by apply Z.mod_mul.
Qed.

Lemma valid_extent_1 : valid_extent 1 = true.
Proof. reflexivity. Qed.

Lemma valid_extent_spec (d : number) :
  valid_extent d = true ↔ isInteger d = true ∧ 0 <= d.
Proof.
  unfold valid_extent, geb. rewrite andb_true_iff, Qle_bool_iff. tauto.
Qed.

Lemma valid_extent_not_minus_1 (d : number) :
  valid_extent d = true → Qeq_bool d (-1) = false.
Proof.
  intros [_ Hd]%valid_extent_spec.
  destruct (Qeq_bool d (-1)) eqn:E; [|done].
  apply Qeq_bool_iff in E. rewrite E in Hd. exfalso. by apply Hd.
Qed.

Lemma num_geb_spec (a b : number) : geb a b = true ↔ b <= a.
Proof. apply Qle_bool_iff. Qed.

Lemma num_ltb_spec (a b : number) : ltb a b = true ↔ a < b.
Proof.
  unfold ltb. rewrite negb_true_iff, <- not_true_iff_false, Qle_bool_iff.
  split; [apply Qnot_le_lt | apply Qlt_not_le].
Qed.

End NumberFacts.

Section Assertions.

Lemma forEach_assert {A} (p : A → bool) (e : Error) (l : list A) :
  forEach (λ a, assert (p a) e) l = if forallb p l then Ok tt else Throw e.
Proof.
  induction l as [|a l IH]; [done|].
  cbn. destruct (p a); cbn; [exact IH | done].
Qed.

Lemma forallb_valid_shape (shape : list number) :
  forallb valid_extent shape = true ↔ valid_shape shape.
Proof.
  unfold valid_shape. rewrite forallb_forall, Forall_forall.
  by setoid_rewrite list_elem_of_In.
Qed.

Lemma assert_dims_valid (shape : list number) :
  valid_shape shape → assertNonNegativeIntegerDimensions shape = Ok tt.
Proof.
  intros Hv%forallb_valid_shape. unfold assertNonNegativeIntegerDimensions.
  by rewrite forEach_assert, Hv.
Qed.

Lemma assert_dims_invalid (shape : list number) :
  ¬ valid_shape shape →
  assertNonNegativeIntegerDimensions shape
  = Throw (NonNegativeIntegerDimensions shape).
Proof.
  intros Hv. unfold assertNonNegativeIntegerDimensions.
  rewrite forEach_assert.
  destruct (forallb valid_extent shape) eqn:E; [|done].
  by apply forallb_valid_shape in E.
Qed.

Lemma assert_dims_cases (shape : list number) :
  (valid_shape shape ∧ assertNonNegativeIntegerDimensions shape = Ok tt) ∨
  (¬ valid_shape shape ∧
   assertNonNegativeIntegerDimensions shape
   = Throw (NonNegativeIntegerDimensions shape)).
Proof.
  destruct (forallb valid_extent shape) eqn:E.
  - left. apply forallb_valid_shape in E. auto using assert_dims_valid.
  - right. assert (¬ valid_shape shape) as Hn.
    { intros Hv%forallb_valid_shape. congruence. }
    auto using assert_dims_invalid.
Qed.

End Assertions.

Module PadFacts.
Import BroadcastTo.

Lemma unshift_loop_replicate (fuel : nat) (newShape : list number) (n : nat) :
  (n - length newShape ≤ fuel)%nat →
  unshift_loop fuel newShape n
  = replicate (n - length newShape) 1 ++ newShape.
Proof.
  revert newShape. induction fuel as [|fuel IH]; intros newShape Hf; cbn [unshift_loop].
  - by replace (n - length newShape)%nat with 0%nat by lia.
  - destruct (Nat.ltb_spec (length newShape) n) as [Hlt|Hge].
    + rewrite IH by (cbn; lia). cbn [length].
      replace (n - length newShape)%nat with (S (n - S (length newShape))) by lia.
      rewrite replicate_S_end, <- app_assoc. done.
    + by replace (n - length newShape)%nat with 0%nat by lia.
Qed.

Lemma padShape_replicate (xShape shape : list number) :
  padShape xShape shape
  = replicate (length shape - length xShape) 1 ++ xShape.
Proof.
  unfold padShape. destruct (Nat.ltb_spec (length xShape) (length shape)).
  - apply unshift_loop_replicate. lia.
  - by replace (length shape - length xShape)%nat with 0%nat by lia.
Qed.

Lemma padShape_length (xShape shape : list number) :
  (length xShape ≤ length shape)%nat →
  length (padShape xShape shape) = length shape.
Proof.
  intros. rewrite padShape_replicate, length_app, length_replicate. lia.
Qed.

Lemma padShape_same_rank (xShape shape : list number) :
  length xShape = length shape → padShape xShape shape = xShape.
Proof.
  intros E. rewrite padShape_replicate, E, Nat.sub_diag. done.
Qed.

End PadFacts.

Module LoopFacts.
Import BroadcastTo.

Section Loop.
Variables xShape inputShape shape : list number.

(** The loop never changes the number of entries of [reps]. *)
Lemma reps_loop_length (n : nat) (reps reps' : list number) :
  reps_loop xShape inputShape shape n reps = Ok reps' →
  length reps' = length reps.
Proof.
  revert reps. induction n as [|i IH]; intros reps; cbn [reps_loop].
  - by intros [= <-].
  - destruct (strict_eq _ _).
    + intros ->%IH. apply length_insert.
    + destruct (negb _); [done | apply IH].
Qed.

(** The only error of the loop is [IncompatibleShapes], with the caller's
    two shapes. *)
Lemma reps_loop_error (n : nat) (reps : list number) (e : Error) :
  reps_loop xShape inputShape shape n reps = Throw e →
  e = IncompatibleShapes xShape shape.
Proof.
  revert reps. induction n as [|i IH]; intros reps; cbn [reps_loop]; [done|].
  destruct (strict_eq _ _); [apply IH|].
  destruct (negb _); [by intros [= <-] | apply IH].
Qed.

(** An axis below [n] whose extent is neither the target's nor 1 makes the
    loop throw. *)
Lemma reps_loop_throws (n : nat) (reps : list number) (i : nat) (p t : number) :
  (i < n)%nat → inputShape !! i = Some p → shape !! i = Some t →
  ¬ p == t → ¬ p == 1 →
  reps_loop xShape inputShape shape n reps
  = Throw (IncompatibleShapes xShape shape).
Proof.
  intros Hi Hp Ht Hpt Hp1. revert reps.
  induction n as [|m IH]; intros reps; [lia|]. cbn [reps_loop].
  destruct (decide (i = m)) as [->|Hne].
  - rewrite Hp, Ht.
    apply strict_eq_Some_false in Hpt as ->.
    apply strict_eq_Some_false in Hp1 as ->. done.
  - assert (i < m)%nat as Hlt by lia.
    destruct (strict_eq _ _); [by apply IH|].
    destruct (negb _); [done | by apply IH].
Qed.

(** When every axis below [n] is compatible the loop returns: an axis
    whose extent equals the target's gets 1, any other entry of [reps] is
    left as it was. *)
Lemma reps_loop_returns (n : nat) (reps : list number) :
  (n ≤ length inputShape)%nat → (n ≤ length shape)%nat →
  (n ≤ length reps)%nat →
  (∀ i p t, (i < n)%nat → inputShape !! i = Some p → shape !! i = Some t →
            p == t ∨ p == 1) →
  ∃ reps',
    reps_loop xShape inputShape shape n reps = Ok reps' ∧
    length reps' = length reps ∧
    (∀ i, (n ≤ i)%nat → reps' !! i = reps !! i) ∧
    (∀ i p t, (i < n)%nat →
       inputShape !! i = Some p → shape !! i = Some t →
       (p == t → reps' !! i = Some 1) ∧
       (¬ p == t → reps' !! i = reps !! i)).
Proof.
  revert reps. induction n as [|m IH]; intros reps HP HT HR Hc.
  { exists reps. cbn. repeat split; auto; lia. }
  cbn [reps_loop].
  destruct (lookup_lt_is_Some_2 inputShape m) as [p Hp]; [lia|].
  destruct (lookup_lt_is_Some_2 shape m) as [t Ht]; [lia|].
  rewrite Hp, Ht.
  destruct (strict_eq (Some p) (Some t)) eqn:Ept.
  - apply strict_eq_Some in Ept.
    destruct (IH (<[m:=1]> reps)) as (reps' & Hrun & Hlen & Hhigh & Hlow).
    { lia. } { lia. } { rewrite length_insert. lia. }
    { intros i p' t' Hi. apply Hc. lia. }
    rewrite length_insert in Hlen.
    exists reps'. split; [done|]. split; [done|]. split.
    + intros i Hi. rewrite Hhigh by lia. apply list_lookup_insert_ne. lia.
    + intros i p' t' Hi Hp' Ht'.
      destruct (decide (i = m)) as [->|Hne].
      * rewrite Hp in Hp'. rewrite Ht in Ht'.
        injection Hp' as <-. injection Ht' as <-. split; [|done].
        intros _. rewrite Hhigh by lia. apply list_lookup_insert_eq. lia.
      * destruct (Hlow i p' t') as [Hl1 Hl2]; [lia|done|done|].
        split; [done|]. intros Hn. rewrite Hl2 by done.
        apply list_lookup_insert_ne. lia.
  - apply strict_eq_Some_false in Ept.
    destruct (Hc m p t) as [Hpt|Hp1]; [lia|done|done|done|].
    apply strict_eq_Some in Hp1 as ->. cbn [negb].
    destruct (IH reps) as (reps' & Hrun & Hlen & Hhigh & Hlow).
    { lia. } { lia. } { lia. }
    { intros i p' t' Hi. apply Hc. lia. }
    exists reps'. split; [done|]. split; [done|]. split.
    + intros i Hi. apply Hhigh. lia.
    + intros i p' t' Hi Hp' Ht'.
      destruct (decide (i = m)) as [->|Hne].
      * rewrite Hp in Hp'. rewrite Ht in Ht'.
        injection Hp' as <-. injection Ht' as <-. split; [done|].
        intros _. apply Hhigh. lia.
      * apply Hlow; [lia|done|done].
Qed.

End Loop.
End LoopFacts.

Module ResolveFacts.
Import BroadcastTo PadFacts LoopFacts.

Lemma resolve_valid (xShape shape : list number) :
  valid_shape shape →
  resolve xShape shape
  = if (length shape <? length xShape)%nat
    then Throw (RankMismatch (length shape) (length xShape))
    else reps_loop xShape (padShape xShape shape) shape (length shape) shape.
Proof. intros Hv. unfold resolve. by rewrite assert_dims_valid. Qed.

Lemma resolve_invalid (xShape shape : list number) :
  ¬ valid_shape shape →
  resolve xShape shape = Throw (NonNegativeIntegerDimensions shape).
Proof. intros Hv. unfold resolve. by rewrite assert_dims_invalid. Qed.

(** What [resolve] can throw, and when. *)
Lemma resolve_error (xShape shape : list number) (e : Error) :
  resolve xShape shape = Throw e →
  (e = NonNegativeIntegerDimensions shape ∧ ¬ valid_shape shape) ∨
  (e = RankMismatch (length shape) (length xShape) ∧
   valid_shape shape ∧ (length shape < length xShape)%nat) ∨
  (e = IncompatibleShapes xShape shape ∧
   valid_shape shape ∧ (length xShape ≤ length shape)%nat).
Proof.
  destruct (assert_dims_cases shape) as [[Hv _]|[Hv _]].
  - rewrite resolve_valid by done.
    destruct (Nat.ltb_spec (length shape) (length xShape)).
    + intros [= <-]. auto.
    + intros ->%reps_loop_error. auto.
  - rewrite resolve_invalid by done. intros [= <-]. auto.
Qed.

Lemma resolve_length (xShape shape reps : list number) :
  resolve xShape shape = Ok reps → length reps = length shape.
Proof.
  destruct (assert_dims_cases shape) as [[Hv _]|[Hv _]].
  - rewrite resolve_valid by done. destruct (_ <? _)%nat; [done|].
    apply reps_loop_length.
  - by rewrite resolve_invalid.
Qed.

(** No entry above 1: no axis to tile. *)
Lemma tiling_axes_nil (reps : list number) :
  Forall (λ r, gtb r 1 = false) reps → tiling_axes reps = [].
Proof.
  unfold tiling_axes. generalize of_nat. intros f Hall. revert f.
  induction Hall as [|r reps Hr _ IH]; intros f; [done|].
  cbn [imap List.filter]. rewrite Hr. apply (IH (f ∘ S)).
Qed.

Lemma tiling_axes_ones (n : nat) : tiling_axes (replicate n 1) = [].
Proof. apply tiling_axes_nil, Forall_replicate. reflexivity. Qed.

Lemma resolve_same (S : list number) :
  valid_shape S → resolve S S = Ok (replicate (length S) 1).
Proof.
  intros Hv. rewrite resolve_valid, Nat.ltb_irrefl by done.
  rewrite padShape_same_rank by done.
  destruct (reps_loop_returns S S S (length S) S)
    as (reps & -> & Hlen & _ & Hlow); [lia|lia|lia| |].
  { intros i p t _ -> [= ->]. by left. }
  f_equal. apply list_eq_same_length with (length S); [solve_length..|].
  intros i x y Hi Hx Hy.
  rewrite lookup_replicate_2 in Hy by done. injection Hy as <-.
  destruct (lookup_lt_is_Some_2 S i Hi) as [s Hs].
  destruct (Hlow i s s Hi Hs Hs) as [Hone _].
  rewrite Hone in Hx by reflexivity. by injection Hx.
Qed.

End ResolveFacts.

(** ** The shape resolver *)

Module ResolveSpec.
Import BroadcastTo PadFacts LoopFacts ResolveFacts.

(** C1.  Source [S] and target [T], a shape, with rank of [S] at most
    that of [T]; [P] is [S] left-padded with 1s to the rank of [T].
    If every axis [i] has [P[i]] equal to [T[i]] or to 1, [resolve]
    returns repetitions [reps] with [reps[i] = 1] where [P[i]] equals
    [T[i]] and [reps[i]] equal to [T[i]] where [P[i]] equals 1.  If some
    axis has neither, [resolve] fails with [IncompatibleShapes S T].  In
    particular [resolve([2,3], [2,4])] fails so. *)
Theorem C1_axis_rule (S T : list number) :
  valid_shape T → (length S ≤ length T)%nat →
  let P := padShape S T in
  length P = length T ∧
  ((∀ i p t, P !! i = Some p → T !! i = Some t → p == t ∨ p == 1) →
   ∃ reps,
     resolve S T = Ok reps ∧ length reps = length T ∧
     ∀ i p t, P !! i = Some p → T !! i = Some t →
       (p == t → reps !! i = Some 1) ∧
       (p == 1 → ∃ r, reps !! i = Some r ∧ r == t)) ∧
  ((∃ i p t, P !! i = Some p ∧ T !! i = Some t ∧ ¬ p == t ∧ ¬ p == 1) →
   resolve S T = Throw (IncompatibleShapes S T)) ∧
  resolve [2; 3] [2; 4] = Throw (IncompatibleShapes [2; 3] [2; 4]).
Proof.
  intros Hv Hrank P.
  assert (length P = length T) as HP by by apply padShape_length.
  assert ((length T <? length S)%nat = false) as Hlt by (apply Nat.ltb_ge; lia).
  split; [done|]. split; [|split; [|reflexivity]].
  - intros Hc. rewrite resolve_valid, Hlt by done. fold P.
    destruct (reps_loop_returns S P T (length T) T)
      as (reps & Hrun & Hlen & _ & Hlow); [lia|lia|lia| |].
    { intros i p t _. apply Hc. }
    exists reps. split; [done|]. split; [done|].
    intros i p t Hp Ht.
    assert (i < length T)%nat as Hi by by eapply lookup_lt_Some.
    destruct (Hlow i p t Hi Hp Ht) as [Heq Hne]. split; [done|].
    intros Hp1. destruct (Qeq_dec p t) as [Hpt|Hpt].
    + exists 1. split; [auto|]. by rewrite <- Hp1.
    + exists t. split; [|reflexivity]. by rewrite Hne.
  - intros (i & p & t & Hp & Ht & Hpt & Hp1).
    rewrite resolve_valid, Hlt by done. fold P.
    eapply reps_loop_throws; eauto. by eapply lookup_lt_Some.
Qed.

Lemma C1_axis_rule_witness :
  valid_shape [2; 4] ∧ (length [2; 3] ≤ length [2; 4])%nat ∧
  resolve [2; 3] [2; 4] = Throw (IncompatibleShapes [2; 3] [2; 4]).
Proof.
  assert (valid_shape [2; 4]) as Hv by (repeat constructor).
  assert (length [2; 3] ≤ length [2; 4])%nat as Hr by (simpl; lia).
  split; [exact Hv|]. split; [exact Hr|].
  refine (proj1 (proj2 (proj2 (C1_axis_rule [2; 3] [2; 4] Hv Hr))) _).
  exists 1%nat, 3, 4. repeat split; discriminate.
Defined.

(** C2.  [resolve] fails with [RankMismatch] only when the target is
    shorter than the source's rank, and the error then reports both
    ranks; for a target that is a shape, it does fail so whenever the
    target is shorter.  With target rank at least the source rank no rank
    error is raised.  In particular [resolve([1,2,3], [4])] fails with
    [RankMismatch]. *)
Theorem C2_rank_mismatch (S T : list number) :
  (∀ a b, resolve S T = Throw (RankMismatch a b) →
          a = length T ∧ b = length S ∧ (length T < length S)%nat) ∧
  (valid_shape T →
   (resolve S T = Throw (RankMismatch (length T) (length S))
    ↔ (length T < length S)%nat)) ∧
  ((length S ≤ length T)%nat → ∀ a b, resolve S T ≠ Throw (RankMismatch a b)) ∧
  resolve [1; 2; 3] [4] = Throw (RankMismatch 1 3).
Proof.
  assert (∀ a b, resolve S T = Throw (RankMismatch a b) →
            a = length T ∧ b = length S ∧ (length T < length S)%nat) as Honly.
  { intros a b [[? _]|[(? & _ & ?)|[? _]]]%resolve_error;
      [done| |done]. by simplify_eq. }
  split; [done|]. split; [|split; [|reflexivity]].
  - intros Hv. split; [by intros (_ & _ & ?)%Honly|].
    intros Hlt. rewrite resolve_valid by done.
    by apply Nat.ltb_lt in Hlt as ->.
  - intros Hle a b (_ & _ & ?)%Honly. lia.
Qed.

Lemma C2_rank_mismatch_witness :
  valid_shape [4] ∧ (length [4] < length [1; 2; 3])%nat ∧
  resolve [1; 2; 3] [4] = Throw (RankMismatch 1 3).
Proof.
  assert (valid_shape [4]) as Hv by (repeat constructor).
  assert (length [4] < length [1; 2; 3])%nat as Hr by (simpl; lia).
  split; [exact Hv|]. split; [exact Hr|].
  exact (proj2 (proj1 (proj2 (C2_rank_mismatch [1; 2; 3] [4])) Hv) Hr).
Defined.

(** C3.  When the source's rank is strictly below the target's, the shape
    the axis walk reads is the source with 1s put in front, as many as
    make its rank the target's; and whenever [resolve] returns, the
    repetition factors are as many as the target's extents. *)
Theorem C3_left_pad (S T : list number) :
  (length S < length T)%nat →
  padShape S T = replicate (length T - length S) 1 ++ S ∧
  length (padShape S T) = length T ∧
  (valid_shape T →
   resolve S T
   = reps_loop S (replicate (length T - length S) 1 ++ S) T (length T) T) ∧
  ∀ reps, resolve S T = Ok reps → length reps = length T.
Proof.
  intros Hlt. split; [apply padShape_replicate|].
  split; [apply padShape_length; lia|]. split.
  - intros Hv. rewrite resolve_valid, padShape_replicate by done.
    by replace (length T <? length S)%nat with false
      by (symmetry; apply Nat.ltb_ge; lia).
  - intros reps. apply resolve_length.
Qed.

Lemma C3_left_pad_witness :
  (length [3] < length [2; 3])%nat ∧ padShape [3] [2; 3] = [1; 3].
Proof.
  assert (length [3] < length [2; 3])%nat as Hlt by (simpl; lia).
  split; [exact Hlt|]. exact (proj1 (C3_left_pad [3] [2; 3] Hlt)).
Defined.

(** C5.  [S] is a shape whose axis [k] has extent 1, and [T] is [S] with
    that extent raised to [n > 1].  Then [resolve(S, T)] returns [n] on
    axis [k] and 1 on every other axis.  In particular
    [resolve([1,4], [5,4])] returns [[5,1]]. *)
Theorem C5_single_axis (S : list number) (k : nat) (s n : number) :
  valid_shape S → S !! k = Some s → s == 1 →
  valid_extent n = true → 1 < n →
  resolve S (<[k:=n]> S) = Ok (<[k:=n]> (replicate (length S) 1)) ∧
  (∃ reps, resolve S (<[k:=n]> S) = Ok reps ∧ reps !! k = Some n ∧
     ∀ i, i ≠ k → (i < length S)%nat → reps !! i = Some 1) ∧
  resolve [1; 4] [5; 4] = Ok [5; 1].
Proof.
  intros Hv Hk Hs Hn Hgt.
  assert (k < length S)%nat as Hklt by by eapply lookup_lt_Some.
  set (T := <[k:=n]> S).
  assert (length T = length S) as HT by apply length_insert.
  assert (valid_shape T) as HvT by by apply Forall_insert.
  assert (resolve S T = Ok (<[k:=n]> (replicate (length S) 1))) as Hres.
  { rewrite resolve_valid, HT, Nat.ltb_irrefl by done.
    rewrite padShape_same_rank by done.
    destruct (reps_loop_returns S S T (length S) T)
      as (reps & -> & Hlen & _ & Hlow); [lia|lia|lia| |].
    { intros i p t Hi Hp Ht. destruct (decide (i = k)) as [->|Hne].
      - right. rewrite Hk in Hp. by injection Hp as <-.
      - left. unfold T in Ht. rewrite list_lookup_insert_ne in Ht by done.
        rewrite Hp in Ht. by injection Ht as <-. }
    f_equal. apply list_eq_same_length with (length S); [solve_length..|].
    intros i x y Hi Hx Hy.
    destruct (lookup_lt_is_Some_2 S i Hi) as [p Hp].
    destruct (decide (i = k)) as [->|Hne].
    - rewrite list_lookup_insert_eq in Hy
        by (by rewrite length_replicate).
      injection Hy as <-.
      assert (T !! k = Some n) as Ht
        by (unfold T; by apply list_lookup_insert_eq).
      destruct (Hlow k p n Hi Hp Ht) as [_ Hkeep].
      rewrite Hkeep, Ht in Hx.
      + by injection Hx.
      + rewrite Hk in Hp. injection Hp as <-. rewrite Hs.
        intros E. rewrite <- E in Hgt. by apply Qlt_irrefl in Hgt.
    - rewrite list_lookup_insert_ne, lookup_replicate_2 in Hy by done.
      injection Hy as <-.
      assert (T !! i = Some p) as Ht
        by (unfold T; by rewrite list_lookup_insert_ne).
      destruct (Hlow i p p Hi Hp Ht) as [Hone _].
      rewrite Hone in Hx by reflexivity. by injection Hx. }
  split; [done|]. split; [|reflexivity].
  eexists. split; [exact Hres|]. split.
  - apply list_lookup_insert_eq. by rewrite length_replicate.
  - intros i Hne Hi. rewrite list_lookup_insert_ne by done.
    by apply lookup_replicate_2.
Qed.

Lemma C5_single_axis_witness :
  valid_shape [1; 4] ∧ 1 < 5 ∧ resolve [1; 4] [5; 4] = Ok [5; 1].
Proof.
  assert (valid_shape [1; 4]) as Hv by (repeat constructor).
  assert (1 < 5) as Hgt by reflexivity.
  split; [exact Hv|]. split; [exact Hgt|].
  exact (proj1 (C5_single_axis [1; 4] 0 1 5 Hv eq_refl (Qeq_refl 1) eq_refl Hgt)).
Defined.

End ResolveSpec.

(** ** The entry of an op *)

Module OpFacts.

Lemma convertToTensor_numeric (x : Tensor) (argName functionName : string) :
  dtype x ≠ string_ → convertToTensor x argName functionName = Ok x.
Proof. unfold convertToTensor. by destruct (dtype x). Qed.

Lemma convertToTensor_string (x : Tensor) (argName functionName : string) :
  dtype x = string_ →
  convertToTensor x argName functionName
  = Throw (ArgumentDtype argName functionName string_).
Proof. unfold convertToTensor. by intros ->. Qed.

Lemma Op_bind_lift_Ok {A B} (a : A) (k : A → Op B) :
  lift (Ok a) ≫= k = k a.
Proof. unfold lift, mbind, Op_bind. by destruct (k a). Qed.

End OpFacts.

(** ** broadcastTo on tensors *)

Module BroadcastSpec.
Import BroadcastTo PadFacts LoopFacts ResolveFacts OpFacts.

Lemma inferFromImplicitShape_valid (newShape : list number) (sz : number) :
  valid_shape newShape → inferFromImplicitShape newShape sz = newShape.
Proof.
  unfold inferFromImplicitShape. generalize (sizeFromShape
    (List.filter (λ d, negb (Qeq_bool d (-1))) newShape)). intros q Hv.
  induction Hv as [|d l Hd _ IH]; [done|].
  cbn [map]. by rewrite IH, (valid_extent_not_minus_1 d Hd).
Qed.

Lemma padShape_valid (xShape shape_ : list number) :
  valid_shape xShape → valid_shape (padShape xShape shape_).
Proof.
  intros Hv. rewrite padShape_replicate. apply Forall_app. split; [|done].
  by apply Forall_replicate.
Qed.

Section WithEngine.
Context `{Engine}.

Lemma broadcastTo_same (x : Tensor) :
  valid_shape (shape x) → dtype x ≠ string_ →
  broadcastTo_ x (shape x) = ([], Ok (clone x)).
Proof.
  intros Hv Hdt.
  pose proof (resolve_same (shape x) Hv) as Hres.
  rewrite resolve_valid, Nat.ltb_irrefl, padShape_same_rank in Hres by done.
  unfold broadcastTo_.
  rewrite convertToTensor_numeric, Op_bind_lift_Ok by done. unfold rank.
  rewrite assert_dims_valid, Nat.ltb_irrefl, Hres by done.
  cbn. by rewrite tiling_axes_ones.
Qed.

(** C4.  For a shape [S], [resolve(S, S)] returns 1 for every axis and no
    axis is to be tiled; [broadcastTo] of a numeric tensor of shape [S] to
    [S] returns a copy of the tensor, with its shape and values, and makes
    no [Tile] call. *)
Theorem C4_identity (S : list number) :
  valid_shape S →
  resolve S S = Ok (replicate (length S) 1) ∧
  tiling_axes (replicate (length S) 1) = [] ∧
  ∀ x, shape x = S → dtype x ≠ string_ →
    snd (broadcastTo_ x S) = Ok (clone x) ∧
    calls Tile (fst (broadcastTo_ x S)) = [] ∧
    shape (clone x) = S ∧ values (clone x) = values x.
Proof.
  intros Hv. split; [by apply resolve_same|].
  split; [apply tiling_axes_ones|].
  intros x <- Hdt. by rewrite broadcastTo_same.
Qed.

(** C8.  A target with a negative or a fractional extent makes
    [broadcastTo] throw, whatever the tensor and whatever the two ranks,
    before the ranks are compared and before any kernel is run.  For a
    numeric tensor the error is the dimension error; a string tensor has
    been refused on entry. *)
Theorem C8_target_validated (x : Tensor) (shape_ : list number) (d : number) :
  d ∈ shape_ → d < 0 ∨ isInteger d = false →
  (dtype x ≠ string_ →
   broadcastTo_ x shape_
   = ([], Throw (NonNegativeIntegerDimensions shape_))) ∧
  (∃ e, broadcastTo_ x shape_ = ([], Throw e) ∧
        ∀ a b, e ≠ RankMismatch a b) ∧
  resolve (shape x) shape_ = Throw (NonNegativeIntegerDimensions shape_).
Proof.
  intros Hin Hbad.
  assert (¬ valid_shape shape_) as Hn.
  { intros Hv. unfold valid_shape in Hv. rewrite Forall_forall in Hv.
    apply Hv, valid_extent_spec in Hin as [Hint Hpos].
    destruct Hbad as [Hneg|Hfrac]; [|congruence].
    by apply Qlt_not_le in Hneg. }
  assert (dtype x ≠ string_ →
          broadcastTo_ x shape_
          = ([], Throw (NonNegativeIntegerDimensions shape_))) as Hnum.
  { intros Hdt. unfold broadcastTo_.
    rewrite convertToTensor_numeric, Op_bind_lift_Ok by done.
    by rewrite assert_dims_invalid. }
  split; [done|]. split; [|by apply resolve_invalid].
  destruct (decide (dtype x = string_)) as [Hs|Hs].
  - exists (ArgumentDtype "broadcastTo" "x" string_). split; [|done].
    unfold broadcastTo_. by rewrite convertToTensor_string.
  - exists (NonNegativeIntegerDimensions shape_). split; [by apply Hnum|done].
Qed.

(** [broadcastTo_] on a well-formed numeric tensor is [resolve] on the
    shapes, followed by the choice between the copy and the [Tile]
    kernel. *)
Lemma broadcastTo_resolve (x : Tensor) (shape_ : list number) :
  dtype x ≠ string_ → valid_shape (shape x) →
  let input :=
    if (rank x <? length shape_)%nat
    then reshape x (padShape (shape x) shape_) else x in
  shape input = padShape (shape x) shape_ ∧
  broadcastTo_ x shape_
  = match resolve (shape x) shape_ with
    | Throw e => ([], Throw e)
    | Ok reps =>
        if (length (tiling_axes reps) =? 0)%nat
        then ([], Ok (clone input))
        else ([RunKernel Tile input (TileAttrs reps)],
              Ok (kernel Tile input (TileAttrs reps)))
    end.
Proof.
  intros Hdt Hx input.
  assert (shape input = padShape (shape x) shape_) as Hshape.
  { unfold input. destruct (rank x <? length shape_)%nat eqn:E.
    - cbn [reshape shape]. by apply inferFromImplicitShape_valid, padShape_valid.
    - unfold padShape. unfold rank in E. by rewrite E. }
  split; [done|].
  unfold broadcastTo_.
  rewrite convertToTensor_numeric, Op_bind_lift_Ok by done.
  destruct (assert_dims_cases shape_) as [[Hv Ha]|[Hv Ha]]; rewrite Ha.
  2: { by rewrite resolve_invalid. }
  rewrite resolve_valid by done. fold (rank x).
  cbn [lift mbind Op_bind app].
  destruct (length shape_ <? rank x)%nat; [done|].
  replace (if (rank x <? length shape_)%nat
           then reshape x (unshift_loop (length shape_) (shape x) (length shape_))
           else x) with input.
  2: { unfold input, padShape, rank. by destruct (_ <? _)%nat. }
  rewrite Hshape.
  destruct (reps_loop _ _ _ _ _) as [reps|e]; [|done].
  by destruct (_ =? _)%nat.
Qed.

End WithEngine.

Lemma C4_identity_witness :
  valid_shape [2; 3] ∧ dtype Backend.matrix23 ≠ string_ ∧
  snd (@broadcastTo_ Backend.engine Backend.matrix23 [2; 3])
  = Ok Backend.matrix23 ∧
  calls Tile (fst (@broadcastTo_ Backend.engine Backend.matrix23 [2; 3])) = [].
Proof.
  assert (valid_shape [2; 3]) as Hv by (repeat constructor).
  assert (dtype Backend.matrix23 ≠ string_) as Hdt by discriminate.
  split; [exact Hv|]. split; [exact Hdt|].
  pose proof (proj2 (proj2 (@C4_identity Backend.engine [2; 3] Hv))
                Backend.matrix23 eq_refl Hdt) as (Hres & Hcalls & _).
  split; [exact Hres | exact Hcalls].
Defined.

Lemma C8_target_validated_witness :
  (-1) ∈ [2; -1] ∧ -1 < 0 ∧ dtype Backend.vector3 ≠ string_ ∧
  @broadcastTo_ Backend.engine Backend.vector3 [2; -1]
  = ([], Throw (NonNegativeIntegerDimensions [2; -1])).
Proof.
  assert ((-1) ∈ [2; -1]) as Hin by (right; left).
  assert (-1 < 0) as Hneg by reflexivity.
  assert (dtype Backend.vector3 ≠ string_) as Hdt by discriminate.
  split; [exact Hin|]. split; [exact Hneg|]. split; [exact Hdt|].
  exact (proj1 (@C8_target_validated Backend.engine
                  Backend.vector3 [2; -1] (-1) Hin (or_introl Hneg)) Hdt).
Defined.

(** C6, as the code has it.  [resolve([3], [2,3])] pads the source to
    [[1,3]] and returns the repetitions [[2,1]]; axis 0 is to be tiled, and
    [broadcastTo] of a numeric tensor of shape [[3]] runs the [Tile]
    kernel, once, on the tensor under the shape [[1,3]] with these
    repetitions, and returns its answer. *)
Theorem C6_tiles_axis_0 `{Engine} (d : DataType) (v : list number) :
  padShape [3] [2; 3] = [1; 3] ∧
  resolve [3] [2; 3] = Ok [2; 1] ∧
  tiling_axes [2; 1] = [0] ∧
  (d ≠ string_ →
   let x := {| shape := [3]; dtype := d; values := v |} in
   let input := {| shape := [1; 3]; dtype := d; values := v |} in
   snd (broadcastTo_ x [2; 3]) = Ok (kernel Tile input (TileAttrs [2; 1])) ∧
   calls Tile (fst (broadcastTo_ x [2; 3]))
   = [RunKernel Tile input (TileAttrs [2; 1])]).
Proof.
  split; [done|]. split; [done|]. split; [done|].
  intros Hd. by destruct d.
Qed.

Lemma C6_tiles_axis_0_witness :
  float32 ≠ string_ ∧
  snd (@broadcastTo_ Backend.engine Backend.vector3 [2; 3])
  = Ok (@kernel Backend.engine Tile
          {| shape := [1; 3]; dtype := float32; values := [7; 8; 9] |}
          (TileAttrs [2; 1])).
Proof.
  assert (float32 ≠ string_) as Hd by discriminate.
  split; [exact Hd|].
  exact (proj1 (proj2 (proj2 (proj2
           (@C6_tiles_axis_0 Backend.engine float32 [7; 8; 9]))) Hd)).
Defined.

(** C6 as the spec has it fails: the repetitions are not [[1,1]], and
    the list of axes to tile is not empty. *)
Lemma C6_counterexample :
  resolve [3] [2; 3] ≠ Ok [1; 1] ∧
  ∀ reps, resolve [3] [2; 3] = Ok reps → tiling_axes reps ≠ [].
Proof.
  split; [discriminate|]. intros reps [= <-]. discriminate.
Qed.

End BroadcastSpec.

(** ** The resolver over the store *)

Module StoreFacts.
Import Arrays BroadcastTo PadFacts ResolveFacts.

Section Primitives.
Variables (h : store) (r : ref) (a : list number).
Hypothesis Hr : h !! r = Some a.

Lemma deref_run : deref r h = (h, Ok a).
Proof. unfold deref. by rewrite Hr. Qed.

Lemma length_of_run : length_of r h = (h, Ok (length a)).
Proof. unfold length_of, mbind, St_bind. by rewrite deref_run. Qed.

Lemma index_run (i : nat) : index r i h = (h, Ok (a !! i)).
Proof. unfold index, mbind, St_bind. by rewrite deref_run. Qed.

Lemma set_index_run (i : nat) (v : number) :
  set_index r i v h = (<[r:=<[i:=v]> a]> h, Ok tt).
Proof. unfold set_index, mbind, St_bind. by rewrite deref_run. Qed.

Lemma unshift_run (v : number) : unshift r v h = (<[r:=v :: a]> h, Ok tt).
Proof. unfold unshift, mbind, St_bind. by rewrite deref_run. Qed.

Lemma slice_run : slice r h = (h ++ [a], Ok (length h)).
Proof. unfold slice, mbind, St_bind. by rewrite deref_run. Qed.

Lemma Array_from_run : Array_from r h = (h ++ [a], Ok (length h)).
Proof. unfold Array_from, mbind, St_bind. by rewrite deref_run. Qed.

End Primitives.

Lemma bind_run {A B} (m : St A) (k : A → St B) (h : store) :
  (m ≫= k) h
  = match m h with
    | (h', Ok a) => k a h'
    | (h', Throw e) => (h', Throw e)
    end.
Proof. reflexivity. Qed.

(** The padding loop only rewrites the array it is given. *)
Lemma unshift_loop_st_run (fuel : nat) (r : ref) (n : nat) (h : store)
    (a : list number) :
  h !! r = Some a →
  unshift_loop_st fuel r n h = (<[r:=unshift_loop fuel a n]> h, Ok tt).
Proof.
  revert h a. induction fuel as [|fuel IH]; intros h a Hr;
    cbn [unshift_loop_st unshift_loop].
  - by rewrite list_insert_id.
  - rewrite bind_run, (length_of_run h r a Hr).
    destruct (length a <? n)%nat.
    + rewrite bind_run, (unshift_run h r a Hr).
      rewrite (IH _ (1 :: a)).
      * by rewrite list_insert_insert_eq.
      * apply list_lookup_insert_eq. by eapply lookup_lt_Some.
    + by rewrite list_insert_id.
Qed.

(** The axis walk only rewrites [reps], and computes what [reps_loop]
    computes from the contents of the arrays. *)
Lemma reps_loop_st_run (xShape inputShape shape reps : ref) (n : nat)
    (h : store) (S P T R : list number) :
  h !! xShape = Some S → h !! inputShape = Some P → h !! shape = Some T →
  h !! reps = Some R →
  reps ≠ xShape → reps ≠ inputShape → reps ≠ shape →
  ∃ R',
    reps_loop_st xShape inputShape shape reps n h
    = (<[reps:=R']> h,
       match reps_loop S P T n R with
       | Ok _ => Ok tt
       | Throw e => Throw e
       end) ∧
    ∀ R'', reps_loop S P T n R = Ok R'' → R' = R''.
Proof.
  intros Hx Hi Hs Hr Hnx Hni Hns. revert h R Hx Hi Hs Hr.
  induction n as [|i IH]; intros h R Hx Hi Hs Hr;
    cbn [reps_loop_st reps_loop].
  { exists R. split; [by rewrite list_insert_id | by intros ? [= <-]]. }
  rewrite bind_run, (index_run h _ P Hi), bind_run, (index_run h _ T Hs).
  assert (reps < length h)%nat as Hlt by by eapply lookup_lt_Some.
  destruct (strict_eq (P !! i) (T !! i)).
  - rewrite bind_run, (set_index_run h _ R Hr).
    destruct (IH (<[reps:=<[i:=1]> R]> h) (<[i:=1]> R)) as (R' & Hrun & HR').
    { by rewrite list_lookup_insert_ne. }
    { by rewrite list_lookup_insert_ne. }
    { by rewrite list_lookup_insert_ne. }
    { by apply list_lookup_insert_eq. }
    exists R'. rewrite Hrun, list_insert_insert_eq. done.
  - destruct (negb (strict_eq (P !! i) (Some 1))).
    + exists R. rewrite bind_run, (deref_run h _ S Hx).
      rewrite bind_run, (deref_run h _ T Hs).
      unfold throw_st. by rewrite list_insert_id.
    + by apply IH.
Qed.

End StoreFacts.

Module StoreSpec.
Import Arrays BroadcastTo PadFacts ResolveFacts StoreFacts.

(** The resolver only adds arrays to the store, and what it leaves in
    [reps] is what [resolve] computes from the contents of its arguments. *)
Lemma resolve_st_frame (h : store) (xShape shape : ref)
    (S T : list number) :
  h !! xShape = Some S → h !! shape = Some T →
  ∃ h' r,
    resolve_st xShape shape h = (h', r) ∧
    h' !! xShape = Some S ∧ h' !! shape = Some T ∧
    (∃ fresh, h' = h ++ fresh) ∧
    match r with
    | Ok reps =>
        (length h ≤ reps)%nat ∧
        ∃ R, h' !! reps = Some R ∧ resolve S T = Ok R
    | Throw e => resolve S T = Throw e
    end.
Proof.
  intros Hx Hs. remember (resolve S T) as spec eqn:Hspec.
  pose (Post := λ res : list (list Q) * result nat,
    ∃ h' r,
      res = (h', r) ∧
      h' !! xShape = Some S ∧ h' !! shape = Some T ∧
      (∃ fresh, h' = h ++ fresh) ∧
      match r with
      | Ok reps =>
          (length h ≤ reps)%nat ∧ ∃ R, h' !! reps = Some R ∧ spec = Ok R
      | Throw e => spec = Throw e
      end).
  change (Post (resolve_st xShape shape h)).
  assert (∀ fresh r,
    match r with
    | Ok reps =>
        (length h ≤ reps)%nat ∧
        ∃ R, (h ++ fresh) !! reps = Some R ∧ spec = Ok R
    | Throw e => spec = Throw e
    end → Post (h ++ fresh, r)) as Hframe.
  { intros fresh r Hr. exists (h ++ fresh), r.
    split; [done|]. split; [by apply lookup_app_l_Some|].
    split; [by apply lookup_app_l_Some|]. split; [by exists fresh | done]. }
  clearbody Post.
  assert (xShape < length h)%nat as Hxlt by by eapply lookup_lt_Some.
  assert (shape < length h)%nat as Hslt by by eapply lookup_lt_Some.
  unfold resolve_st.
  rewrite bind_run, (deref_run h _ T Hs), bind_run. unfold lift_st.
  destruct (assert_dims_cases T) as [[Hv Ha]|[Hv Ha]]; rewrite Ha.
  2: { rewrite resolve_invalid in Hspec by done.
       rewrite <- (app_nil_r h). by apply Hframe. }
  rewrite bind_run, (length_of_run h _ T Hs).
  rewrite bind_run, (length_of_run h _ S Hx).
  rewrite resolve_valid in Hspec by done.
  destruct (length T <? length S)%nat.
  { rewrite <- (app_nil_r h). by apply Hframe. }
  rewrite bind_run. unfold padShape in Hspec.
  destruct (length S <? length T)%nat.
  - (* the source is copied, and the copy is padded *)
    set (P := unshift_loop (length T) S (length T)) in *.
    rewrite bind_run, (slice_run h _ S Hx), bind_run.
    rewrite (unshift_loop_st_run _ _ _ _ S) by (by apply list_lookup_middle).
    rewrite insert_app_r_alt, Nat.sub_diag by done. cbn [insert list_insert].
    fold P. cbn [mret St_ret].
    rewrite bind_run, (Array_from_run (h ++ [P]) _ T)
      by by apply lookup_app_l_Some.
    rewrite bind_run.
    destruct (reps_loop_st_run xShape (length h) shape (length (h ++ [P]))
                (length T) ((h ++ [P]) ++ [T]) S P T T)
      as (R' & -> & HR').
    { by apply lookup_app_l_Some, lookup_app_l_Some. }
    { apply lookup_app_l_Some. by apply list_lookup_middle. }
    { by apply lookup_app_l_Some, lookup_app_l_Some. }
    { by apply list_lookup_middle. }
    { rewrite length_app. cbn. lia. }
    { rewrite length_app. cbn. lia. }
    { rewrite length_app. cbn. lia. }
    rewrite insert_app_r_alt, Nat.sub_diag by done. cbn [insert list_insert].
    rewrite <- app_assoc. cbn [app].
    destruct (reps_loop S P T (length T) T) as [R|e];
      cbn [mret St_ret]; apply Hframe; [|done].
    split; [rewrite length_app; lia|]. exists R. split; [|done].
    rewrite (HR' R) by done.
    replace (h ++ [P; R]) with ((h ++ [P]) ++ [R]) by (by rewrite <- app_assoc).
    by apply list_lookup_middle.
  - (* equal ranks: the axis walk reads the source array itself *)
    cbn [mret St_ret].
    rewrite bind_run, (Array_from_run h _ T Hs), bind_run.
    destruct (reps_loop_st_run xShape xShape shape (length h)
                (length T) (h ++ [T]) S S T T)
      as (R' & -> & HR').
    { by apply lookup_app_l_Some. }
    { by apply lookup_app_l_Some. }
    { by apply lookup_app_l_Some. }
    { by apply list_lookup_middle. }
    { lia. } { lia. } { lia. }
    rewrite insert_app_r_alt, Nat.sub_diag by done. cbn [insert list_insert].
    destruct (reps_loop S S T (length T) T) as [R|e];
      cbn [mret St_ret]; apply Hframe; [|done].
    split; [lia|]. exists R. split; [|done].
    rewrite (HR' R) by done. by apply list_lookup_middle.
Qed.

Lemma tiling_axes_st_run (h : store) (reps : ref) (R : list number) :
  h !! reps = Some R →
  ∃ mapped,
    tiling_axes_st reps h = (h ++ [mapped; tiling_axes R], Ok (S (length h))).
Proof.
  intros Hr. eexists. unfold tiling_axes_st, Array_map, Array_filter.
  rewrite !bind_run, (deref_run h _ R Hr). unfold new_array.
  rewrite bind_run, (deref_run (h ++ [_]) (length h) _)
    by by apply list_lookup_middle.
  rewrite <- app_assoc, length_app, Nat.add_1_r. reflexivity.
Qed.

(** C7.  [xShape] and [shape] refer to the arrays [S] and [T] in the
    store, and may be one and the same array.  After lines 48-75 have run,
    returning or throwing, both hold [S] and [T] as before, and so does
    every array that was in the store: the store has only grown.  The
    repetitions and the axes to tile are in arrays that were not there
    before, and they are what [resolve S T] and [tiling_axes] compute. *)
Theorem C7_arguments_unchanged (h : store) (xShape shape : ref)
    (S T : list number) :
  h !! xShape = Some S → h !! shape = Some T →
  ∃ h' r,
    resolve_axes_st xShape shape h = (h', r) ∧
    h' !! xShape = Some S ∧ h' !! shape = Some T ∧
    (∃ fresh, h' = h ++ fresh) ∧
    match r with
    | Ok (reps, axes) =>
        (length h ≤ reps)%nat ∧ (length h ≤ axes)%nat ∧
        ∃ R, h' !! reps = Some R ∧ resolve S T = Ok R ∧
             h' !! axes = Some (tiling_axes R)
    | Throw e => resolve S T = Throw e
    end.
Proof.
  intros Hx Hs.
  destruct (resolve_st_frame h xShape shape S T Hx Hs)
    as (h1 & r & Hrun & Hx1 & Hs1 & [fresh ->] & Hr).
  unfold resolve_axes_st. rewrite bind_run, Hrun.
  destruct r as [reps|e].
  - destruct Hr as (Hfresh & R & HR & Hres).
    destruct (tiling_axes_st_run _ reps R HR) as [mapped Haxes].
    rewrite bind_run, Haxes. cbn [mret St_ret].
    eexists _, _. split; [reflexivity|].
    split; [by apply lookup_app_l_Some|].
    split; [by apply lookup_app_l_Some|].
    split; [exists (fresh ++ [mapped; tiling_axes R]); by rewrite app_assoc|].
    split; [done|]. split; [rewrite length_app; lia|].
    exists R. split; [by apply lookup_app_l_Some|]. split; [done|].
    replace ((h ++ fresh) ++ [mapped; tiling_axes R])
      with (((h ++ fresh) ++ [mapped]) ++ [tiling_axes R])
      by (by rewrite <- (app_assoc _ [mapped])).
    replace (Datatypes.S (length (h ++ fresh)))
      with (length ((h ++ fresh) ++ [mapped]))
      by (rewrite (length_app _ [mapped]); cbn; lia).
    by apply list_lookup_middle.
  - eexists _, _. split; [reflexivity|].
    split; [done|]. split; [done|]. split; [by exists fresh | done].
Qed.

Lemma C7_arguments_unchanged_witness :
  Backend.two_shapes !! 0%nat = Some [3] ∧
  Backend.two_shapes !! 1%nat = Some [2; 3] ∧
  ∃ h' r,
    resolve_axes_st 0 1 Backend.two_shapes = (h', r) ∧
    h' !! 0%nat = Some [3] ∧ h' !! 1%nat = Some [2; 3] ∧
    (∃ fresh, h' = Backend.two_shapes ++ fresh) ∧
    match r with
    | Ok (reps, axes) =>
        (length Backend.two_shapes ≤ reps)%nat ∧
        (length Backend.two_shapes ≤ axes)%nat ∧
        ∃ R, h' !! reps = Some R ∧ resolve [3] [2; 3] = Ok R ∧
             h' !! axes = Some (tiling_axes R)
    | Throw e => resolve [3] [2; 3] = Throw e
    end.
Proof.
  split; [reflexivity|]. split; [reflexivity|].
  exact (C7_arguments_unchanged Backend.two_shapes 0 1 [3] [2; 3]
           eq_refl eq_refl).
Defined.

End StoreSpec.

(** ** transpose *)

Module TransposeSpec.
Import TransposeOp OpFacts.

Lemma axis_check_spec (x : Tensor) (perm : list number) :
  forallb (λ axis, geb axis 0 && ltb axis (of_nat (rank x))) perm = true
  ↔ Forall (axis_in_range x) perm.
Proof.
  rewrite forallb_forall, Forall_forall. unfold axis_in_range.
  setoid_rewrite list_elem_of_In. setoid_rewrite andb_true_iff.
  setoid_rewrite num_geb_spec. by setoid_rewrite num_ltb_spec.
Qed.

Section WithEngine.
Context `{Engine}.

Lemma transpose_string (x : Tensor) (perm : option (list number))
    (conjugate : bool) :
  dtype x = string_ →
  transpose_ x perm conjugate
  = ([], Throw (ArgumentDtype "x" "transpose" string_)).
Proof. intros Hdt. unfold transpose_. by rewrite convertToTensor_string. Qed.

Lemma transpose_default_low_rank (x : Tensor) (conjugate : bool) :
  dtype x ≠ string_ → (rank x ≤ 1)%nat →
  transpose_ x None conjugate = ([], Ok (clone x)).
Proof.
  intros Hdt. unfold transpose_.
  rewrite convertToTensor_numeric, Op_bind_lift_Ok by done.
  unfold default_perm, rank.
  destruct (shape x) as [|a [|b l]]; cbn [length]; [done|done|lia].
Qed.

Lemma transpose_low_rank (x : Tensor) (p : list number) (conjugate : bool) :
  dtype x ≠ string_ → (rank x ≤ 1)%nat →
  length p = rank x → Forall (axis_in_range x) p →
  transpose_ x (Some p) conjugate = ([], Ok (clone x)).
Proof.
  intros Hdt Hrank Hlen Hrange. unfold transpose_.
  rewrite convertToTensor_numeric, Op_bind_lift_Ok by done.
  rewrite Hlen, Nat.eqb_refl. cbn [assert lift].
  apply axis_check_spec in Hrange. rewrite forEach_assert, Hrange.
  by apply Nat.leb_le in Hrank as ->.
Qed.

Lemma transpose_out_of_range (x : Tensor) (p : list number)
    (conjugate : bool) :
  dtype x ≠ string_ → length p = rank x → ¬ Forall (axis_in_range x) p →
  transpose_ x (Some p) conjugate
  = ([], Throw (TransposePermRange (rank x) p)).
Proof.
  intros Hdt Hlen Hrange. unfold transpose_.
  rewrite convertToTensor_numeric, Op_bind_lift_Ok by done.
  rewrite Hlen, Nat.eqb_refl. cbn [assert lift].
  rewrite forEach_assert.
  destruct (forallb _ p) eqn:E; [|done].
  by apply axis_check_spec in E.
Qed.

(** C9, as the code has it.  For a numeric tensor of rank 0 or 1,
    [transpose] returns a copy with the shape and the values of the input,
    and makes no [Transpose] call, when [perm] is absent, or is as long as
    the rank with every entry at least 0 and below the rank.  A [perm] as
    long as the rank with an entry outside that range makes it throw
    instead, and so does a string tensor, on entry. *)
Theorem C9_low_rank_clone (x : Tensor) (perm : option (list number))
    (conjugate : bool) :
  (rank x ≤ 1)%nat →
  (dtype x ≠ string_ →
   (∀ p, perm = Some p → length p = rank x ∧ Forall (axis_in_range x) p) →
   snd (transpose_ x perm conjugate) = Ok (clone x) ∧
   calls Transpose (fst (transpose_ x perm conjugate)) = [] ∧
   shape (clone x) = shape x ∧ values (clone x) = values x) ∧
  (dtype x ≠ string_ →
   ∀ p, perm = Some p → length p = rank x → ¬ Forall (axis_in_range x) p →
   transpose_ x perm conjugate
   = ([], Throw (TransposePermRange (rank x) p))) ∧
  (dtype x = string_ →
   transpose_ x perm conjugate
   = ([], Throw (ArgumentDtype "x" "transpose" string_))).
Proof.
  intros Hrank. split; [|split].
  - intros Hdt Hperm.
    assert (transpose_ x perm conjugate = ([], Ok (clone x))) as ->; [|done].
    destruct perm as [p|]; [|by apply transpose_default_low_rank].
    destruct (Hperm p eq_refl) as [Hlen Hrange].
    by apply transpose_low_rank.
  - intros Hdt p -> Hlen Hrange. by apply transpose_out_of_range.
  - apply transpose_string.
Qed.

End WithEngine.

Lemma C9_low_rank_clone_witness :
  (rank Backend.vector3 ≤ 1)%nat ∧ dtype Backend.vector3 ≠ string_ ∧
  snd (@transpose_ Backend.engine Backend.vector3 (Some [0]) false)
  = Ok Backend.vector3 ∧
  calls Transpose
    (fst (@transpose_ Backend.engine Backend.vector3 (Some [0]) false)) = [].
Proof.
  assert (rank Backend.vector3 ≤ 1)%nat as Hrank by (cbn; lia).
  assert (dtype Backend.vector3 ≠ string_) as Hdt by discriminate.
  split; [exact Hrank|]. split; [exact Hdt|].
  assert (∀ p, Some [0] = Some p →
            length p = rank Backend.vector3 ∧
            Forall (axis_in_range Backend.vector3) p) as Hperm.
  { intros p [= <-]. split; [reflexivity|].
    repeat constructor; discriminate. }
  pose proof (proj1 (@C9_low_rank_clone Backend.engine Backend.vector3
                       (Some [0]) false Hrank) Hdt Hperm)
    as (Hres & Hcalls & _).
  split; [exact Hres | exact Hcalls].
Defined.

(** C9 as the spec has it fails.  A numeric rank-1 tensor with the
    one-entry [perm] [[1]], of matching length, is not copied: [transpose]
    throws the range error.  And a string tensor of rank 1 is not copied
    either, with or without [perm]: it is refused on entry. *)
Lemma C9_counterexample :
  ((rank Backend.vector3 ≤ 1)%nat ∧ length [1] = rank Backend.vector3 ∧
   @transpose_ Backend.engine Backend.vector3 (Some [1]) false
   = ([], Throw (TransposePermRange 1 [1]))) ∧
  ((rank Backend.no_words ≤ 1)%nat ∧
   @transpose_ Backend.engine Backend.no_words None false
   = ([], Throw (ArgumentDtype "x" "transpose" string_))).
Proof. cbn. split; (split; [lia|]); done. Qed.

End TransposeSpec.

(** ** multinomial *)

Module MultinomialSpec.
Import MultinomialOp OpFacts.

Lemma Qmult_1_r_eq (q : number) : q * 1 = q.
Proof.
  destruct q as [a b]. unfold Qmult. cbn [Qnum Qden].
  by rewrite Z.mul_1_r, Pos.mul_1_r.
Qed.

Lemma Qmult_1_l_eq (q : number) : 1 * q = q.
Proof.
  destruct q as [a b]. unfold Qmult. cbn [Qnum Qden].
  by rewrite Z.mul_1_l, Pos.mul_1_l.
Qed.

Lemma Qdiv_1_r_eq (q : number) : q / 1 = q.
Proof. unfold Qdiv. change (/ 1) with 1. apply Qmult_1_r_eq. Qed.

(** Reshaping to the one extent [sz], the size itself, gives shape [[sz]]. *)
Lemma infer_flat (sz : number) : inferFromImplicitShape [sz] sz = [sz].
Proof.
  unfold inferFromImplicitShape. cbn [List.filter map].
  destruct (Qeq_bool sz (-1)); cbn [negb sizeFromShape foldr]; [|done].
  by rewrite Qdiv_1_r_eq.
Qed.

Lemma size_scalar (x : Tensor) : rank x = 0%nat → size x < 2.
Proof.
  unfold rank, size. destruct (shape x); [reflexivity | discriminate].
Qed.

(** A string tensor is refused on entry, before the size is looked at. *)
Lemma multinomial_string `{Engine} (logits : Tensor) (numSamples : number)
    (seed : option number) (normalized : bool) (random : number) :
  dtype logits = string_ →
  multinomial_ logits numSamples seed normalized random
  = ([], Throw (ArgumentDtype "logits" "multinomial" string_)).
Proof. intros Hdt. unfold multinomial_. by rewrite convertToTensor_string. Qed.

Section WithEngine.
Context `{Engine}.
Variables (logits : Tensor) (numSamples : number) (seed : option number)
  (normalized : bool) (random : number).
Hypothesis numeric : dtype logits ≠ string_.

Let run := multinomial_ logits numSamples seed normalized random.

Lemma multinomial_too_few :
  size logits < 2 → run = ([], Throw (MultinomialOutcomes (size logits))).
Proof.
  intros Hsz. unfold run, multinomial_.
  rewrite convertToTensor_numeric, Op_bind_lift_Ok by done.
  by apply num_ltb_spec in Hsz as ->.
Qed.

Lemma multinomial_rank_above_2 :
  ¬ size logits < 2 → (2 < rank logits)%nat →
  run = ([], Throw (MultinomialRank (rank logits))).
Proof.
  intros Hsz Hrk. unfold run, multinomial_.
  rewrite convertToTensor_numeric, Op_bind_lift_Ok by done.
  destruct (ltb (size logits) 2) eqn:E; [by apply num_ltb_spec in E|].
  by apply Nat.ltb_lt in Hrk as ->.
Qed.

(** What the source says of the kernel: it "only accepts (and returns)
    rank 2 tensors", [numSamples] draws for each row of the logits. *)
Hypothesis kernel_shape :
  ∀ (logits2D : Tensor) (batchSize numOutcomes numSamples seed : number)
    (normalized : bool),
    shape logits2D = [batchSize; numOutcomes] →
    shape (kernel Multinomial logits2D
             (MultinomialAttrs numSamples seed normalized))
    = [batchSize; numSamples].

Lemma multinomial_accepted :
  ¬ size logits < 2 → (rank logits ≤ 2)%nat →
  ∃ logits2D attrs res,
    run = ([RunKernel Multinomial logits2D attrs], Ok res) ∧
    rank res = rank logits ∧
    (rank logits = 1%nat → shape res = [numSamples]) ∧
    (∀ batchSize numOutcomes, shape logits = [batchSize; numOutcomes] →
       shape res = [batchSize; numSamples]).
Proof.
  intros Hsz Hrk. unfold run, multinomial_.
  rewrite convertToTensor_numeric, Op_bind_lift_Ok by done.
  destruct (ltb (size logits) 2) eqn:E;
    [by apply num_ltb_spec in E|].
  replace (2 <? rank logits)%nat with false
    by (symmetry; apply Nat.ltb_ge; lia).
  assert (rank logits ≠ 0%nat) as Hnz
    by (intros Hz; by apply Hsz, size_scalar).
  set (sd := match seed with
             | Some s => if Qeq_bool s 0 then random else s
             | None => random
             end).
  destruct (Nat.eqb_spec (rank logits) 1) as [H1|H1].
  + eexists _, _, _. split; [reflexivity|].
    cbn [reshape shape]. unfold rank. cbn [shape]. unfold size.
    erewrite kernel_shape by reflexivity.
    cbn [sizeFromShape foldr].
    rewrite Qmult_1_l_eq, Qmult_1_r_eq, infer_flat.
    split; [done|]. split; [done|].
    intros b n Hshape. unfold rank in H1. by rewrite Hshape in H1.
  + eexists _, _, _. split; [reflexivity|].
    unfold rank in *.
    destruct (shape logits) as [|b [|n [|? ?]]] eqn:Hshape;
      cbn [length] in *; [done|done| |lia].
    erewrite kernel_shape by exact Hshape.
    split; [done|]. split; [done|].
    by intros ? ? [= <- <-].
Qed.

End WithEngine.

(** C10.  With fewer than 2 elements, or with rank above 2, [multinomial]
    throws and no kernel has been run: for numeric logits, the error on
    the number of outcomes, then the error on the rank.  Otherwise, for
    numeric logits and a kernel that answers [numSamples] draws for each
    row, the [Multinomial] kernel is run once and the result has the rank
    of the logits: shape [[numSamples]] for rank 1, and
    [[batchSize, numSamples]] for rank 2. *)
Theorem C10_multinomial_rank `{Engine} (logits : Tensor) (numSamples : number)
    (seed : option number) (normalized : bool) (random : number) :
  let run := multinomial_ logits numSamples seed normalized random in
  (size logits < 2 ∨ (2 < rank logits)%nat → ∃ e, run = ([], Throw e)) ∧
  (dtype logits ≠ string_ → size logits < 2 →
   run = ([], Throw (MultinomialOutcomes (size logits)))) ∧
  (dtype logits ≠ string_ → ¬ size logits < 2 → (2 < rank logits)%nat →
   run = ([], Throw (MultinomialRank (rank logits)))) ∧
  ((∀ (logits2D : Tensor) (batchSize numOutcomes n sd : number) (nm : bool),
      shape logits2D = [batchSize; numOutcomes] →
      shape (kernel Multinomial logits2D (MultinomialAttrs n sd nm))
      = [batchSize; n]) →
   dtype logits ≠ string_ → ¬ size logits < 2 → (rank logits ≤ 2)%nat →
   ∃ res,
     snd run = Ok res ∧
     rank res = rank logits ∧
     (rank logits = 1%nat → shape res = [numSamples]) ∧
     (∀ batchSize numOutcomes, shape logits = [batchSize; numOutcomes] →
        shape res = [batchSize; numSamples]) ∧
     ∃ logits2D attrs,
       calls Multinomial (fst run) = [RunKernel Multinomial logits2D attrs]).
Proof.
  intros run. split; [|split; [|split]].
  - intros Herr.
    destruct (decide (dtype logits = string_)) as [Hs|Hs].
    { eexists. by apply multinomial_string. }
    destruct (Qlt_le_dec (size logits) 2) as [Hsz|Hsz].
    { eexists. by apply multinomial_too_few. }
    destruct Herr as [Hlt|Hrk]; [by apply Qlt_not_le in Hlt|].
    eexists. apply multinomial_rank_above_2; [done| |done].
    by apply Qle_not_lt.
  - by apply multinomial_too_few.
  - by apply multinomial_rank_above_2.
  - intros Hkernel Hdt Hsz Hrk.
    destruct (multinomial_accepted logits numSamples seed normalized random
                Hdt Hkernel Hsz Hrk)
      as (logits2D & attrs & res & Hrun & Hrank & H1 & H2).
    exists res. unfold run. rewrite Hrun.
    split; [done|]. split; [done|]. split; [done|]. split; [done|].
    by exists logits2D, attrs.
Qed.

Lemma backend_kernel_shape :
  ∀ (logits2D : Tensor) (batchSize numOutcomes numSamples seed : number)
    (normalized : bool),
    shape logits2D = [batchSize; numOutcomes] →
    shape (@kernel Backend.engine Multinomial logits2D
             (MultinomialAttrs numSamples seed normalized))
    = [batchSize; numSamples].
Proof. intros x b n ns sd nm Hx. cbn. by rewrite Hx. Defined.

Lemma C10_multinomial_rank_witness :
  dtype Backend.probs ≠ string_ ∧ ¬ size Backend.probs < 2 ∧
  ∃ res,
    snd (@multinomial_ Backend.engine Backend.probs 3 None false (1 # 2))
    = Ok res ∧
    rank res = rank Backend.probs ∧
    (rank Backend.probs = 1%nat → shape res = [3]) ∧
    (∀ batchSize numOutcomes,
       shape Backend.probs = [batchSize; numOutcomes] →
       shape res = [batchSize; 3]) ∧
    ∃ logits2D attrs,
      calls Multinomial
        (fst (@multinomial_ Backend.engine Backend.probs 3 None false (1 # 2)))
      = [RunKernel Multinomial logits2D attrs].
Proof.
  assert (dtype Backend.probs ≠ string_) as Hdt by discriminate.
  assert (¬ size Backend.probs < 2) as Hsz by discriminate.
  assert (rank Backend.probs ≤ 2)%nat as Hrk by (cbn; lia).
  split; [exact Hdt|]. split; [exact Hsz|].
  exact (proj2 (proj2 (proj2 (@C10_multinomial_rank Backend.engine
                  Backend.probs 3 None false (1 # 2))))
           backend_kernel_shape Hdt Hsz Hrk).
Defined.

End MultinomialSpec.

(** * Further properties of the resolver *)

Module ResolveMore.
Import BroadcastTo PadFacts LoopFacts ResolveFacts.

(** What a returning [resolve] says of its arguments and of each axis. *)
Lemma resolve_returns_inv (S T reps : list number) :
  resolve S T = Ok reps →
  valid_shape T ∧ (length S ≤ length T)%nat ∧
  ∀ i p t, padShape S T !! i = Some p → T !! i = Some t →
    (p == t ∨ p == 1) ∧
    (p == t → reps !! i = Some 1) ∧
    (¬ p == t → reps !! i = Some t).
Proof.
  intros Hres.
  destruct (assert_dims_cases T) as [[Hv _]|[Hv _]];
    [|by rewrite resolve_invalid in Hres].
  rewrite resolve_valid in Hres by done.
  destruct (Nat.ltb_spec (length T) (length S)) as [|Hle]; [done|].
  split; [done|]. split; [done|].
  assert (∀ i p t, padShape S T !! i = Some p → T !! i = Some t →
            p == t ∨ p == 1) as Hc.
  { intros i p t Hp Ht.
    destruct (Qeq_dec p t) as [|Hpt]; [by left|].
    destruct (Qeq_dec p 1) as [|Hp1]; [by right|].
    rewrite (reps_loop_throws S (padShape S T) T (length T) T i p t)
      in Hres; [done| |done..].
    by eapply lookup_lt_Some. }
  pose proof (padShape_length S T Hle) as HP.
  destruct (reps_loop_returns S (padShape S T) T (length T) T)
    as (reps' & Hrun & _ & _ & Hlow); [lia|lia|lia| |].
  { intros i p t _. apply Hc. }
  rewrite Hrun in Hres. injection Hres as ->.
  intros i p t Hp Ht.
  assert (i < length T)%nat as Hi by by eapply lookup_lt_Some.
  destruct (Hlow i p t Hi Hp Ht) as [Heq Hne].
  split; [by eapply Hc|]. split; [done|].
  intros Hpt. by rewrite Hne.
Qed.

Lemma resolve_returns_intro (S T : list number) :
  valid_shape T → (length S ≤ length T)%nat →
  (∀ i p t, padShape S T !! i = Some p → T !! i = Some t →
     p == t ∨ p == 1) →
  ∃ reps, resolve S T = Ok reps.
Proof.
  intros Hv Hle Hc. rewrite resolve_valid by done.
  replace (length T <? length S)%nat with false
    by (symmetry; apply Nat.ltb_ge; lia).
  pose proof (padShape_length S T Hle) as HP.
  destruct (reps_loop_returns S (padShape S T) T (length T) T)
    as (reps & Hrun & _); [lia|lia|lia| |by exists reps].
  intros i p t _. apply Hc.
Qed.

(** The padded source, read at an axis of the target. *)
Lemma padShape_lookup (S T : list number) (i : nat) :
  (length S ≤ length T)%nat →
  padShape S T !! i
  = if decide (i < length T - length S)%nat then Some 1
    else S !! (i - (length T - length S))%nat.
Proof.
  intros Hle. rewrite padShape_replicate. case_decide as Hi.
  - rewrite lookup_app_l by (by rewrite length_replicate).
    by apply lookup_replicate_2.
  - rewrite lookup_app_r by (rewrite length_replicate; lia).
    by rewrite length_replicate.
Qed.

(** X1.  [resolve] returns exactly for a target that is a shape, not shorter
    than the source, each of whose extents the padded source either equals
    or meets with a 1. *)
Theorem resolve_returns_iff (S T : list number) :
  (∃ reps, resolve S T = Ok reps) ↔
  valid_shape T ∧ (length S ≤ length T)%nat ∧
  ∀ i p t, padShape S T !! i = Some p → T !! i = Some t → p == t ∨ p == 1.
Proof.
  split.
  - intros [reps (Hv & Hle & Hax)%resolve_returns_inv].
    split; [done|]. split; [done|].
    intros i p t Hp Ht. by destruct (Hax i p t Hp Ht).
  - intros (Hv & Hle & Hc). by apply resolve_returns_intro.
Qed.

(** X2.  The repetitions make the target out of the padded source: on every
    axis, padded extent times repetition is the target extent. *)
Theorem resolve_reps_product (S T reps : list number) :
  resolve S T = Ok reps →
  length reps = length T ∧
  ∀ i p r t, padShape S T !! i = Some p → reps !! i = Some r →
    T !! i = Some t → p * r == t.
Proof.
  intros Hres. split; [by eapply resolve_length|].
  apply resolve_returns_inv in Hres as (_ & _ & Hax).
  intros i p r t Hp Hr Ht.
  destruct (Hax i p t Hp Ht) as (Hc & Heq & Hne).
  destruct (Qeq_dec p t) as [Hpt|Hpt].
  - rewrite Heq in Hr by done. injection Hr as <-.
    by rewrite Qmult_1_r.
  - rewrite Hne in Hr by done. injection Hr as <-.
    destruct Hc as [|Hp1]; [done|]. rewrite Hp1. apply Qmult_1_l.
Qed.

Lemma resolve_reps_product_witness :
  resolve [1; 4] [5; 4] = Ok [5; 1] ∧
  ∀ i p r t, padShape [1; 4] [5; 4] !! i = Some p → [5; 1] !! i = Some r →
    [5; 4] !! i = Some t → p * r == t.
Proof.
  assert (resolve [1; 4] [5; 4] = Ok [5; 1]) as Hres by reflexivity.
  split; [exact Hres|].
  exact (proj2 (resolve_reps_product [1; 4] [5; 4] [5; 1] Hres)).
Defined.

(** X3.  A tensor of rank 0 broadcasts to every shape, and the repetitions are
    the extents of the target. *)
Theorem resolve_scalar (T : list number) :
  valid_shape T →
  ∃ reps, resolve [] T = Ok reps ∧ Forall2 Qeq reps T.
Proof.
  intros Hv.
  destruct (resolve_returns_intro [] T Hv) as [reps Hres]; [cbn; lia| |].
  { intros i p t Hp _. right.
    rewrite padShape_replicate, app_nil_r in Hp.
    by apply lookup_replicate_1 in Hp as [-> _]. }
  exists reps. split; [done|].
  pose proof (resolve_length _ _ _ Hres) as Hlen.
  apply resolve_returns_inv in Hres as (_ & _ & Hax).
  apply Forall2_same_length_lookup. split; [done|].
  intros i r t Hr Ht.
  assert (padShape [] T !! i = Some 1) as Hp.
  { rewrite padShape_replicate, app_nil_r. apply lookup_replicate_2.
    cbn. rewrite Nat.sub_0_r. by eapply lookup_lt_Some. }
  destruct (Hax i 1 t Hp Ht) as (_ & Heq & Hne).
  destruct (Qeq_dec 1 t) as [Hpt|Hpt].
  - rewrite Heq in Hr by done. by injection Hr as <-.
  - rewrite Hne in Hr by done. by injection Hr as <-.
Qed.

Lemma resolve_scalar_witness :
  valid_shape [2; 3] ∧ ∃ reps, resolve [] [2; 3] = Ok reps ∧ Forall2 Qeq reps [2; 3].
Proof.
  assert (valid_shape [2; 3]) as Hv by (repeat constructor).
  split; [exact Hv|]. exact (resolve_scalar [2; 3] Hv).
Defined.

(** X4.  Broadcasting composes: a source that broadcasts to [T] broadcasts to
    every shape [T] broadcasts to. *)
Theorem resolve_trans (S T U : list number) :
  (∃ reps, resolve S T = Ok reps) → (∃ reps, resolve T U = Ok reps) →
  ∃ reps, resolve S U = Ok reps.
Proof.
  intros [r1 (_ & HST & H1)%resolve_returns_inv]
         [r2 (HvU & HTU & H2)%resolve_returns_inv].
  apply resolve_returns_intro; [done|lia|].
  intros i p u Hp Hu.
  assert (i < length U)%nat as Hi by by eapply lookup_lt_Some.
  rewrite padShape_lookup in Hp by lia.
  case_decide as Hpad; [injection Hp as <-; by right|].
  set (j := (i - (length U - length T))%nat).
  destruct (lookup_lt_is_Some_2 T j) as [t Ht]; [unfold j; lia|].
  assert (padShape T U !! i = Some t) as HpT.
  { rewrite padShape_lookup by done. case_decide; [lia|done]. }
  assert (padShape S T !! j = Some p) as HpS.
  { rewrite padShape_lookup by done. case_decide; [unfold j in *; lia|].
    rewrite <- Hp. f_equal. unfold j. lia. }
  destruct (H1 j p t HpS Ht) as [[Hpt|Hp1] _]; [|by right].
  destruct (H2 i t u HpT Hu) as [[Htu|Ht1] _].
  - left. by rewrite Hpt.
  - right. by rewrite Hpt.
Qed.

Lemma resolve_trans_witness :
  (∃ reps, resolve [3] [1; 3] = Ok reps) ∧
  (∃ reps, resolve [1; 3] [2; 2; 3] = Ok reps) ∧
  ∃ reps, resolve [3] [2; 2; 3] = Ok reps.
Proof.
  assert (∃ reps, resolve [3] [1; 3] = Ok reps) as H1
    by (eexists; reflexivity).
  assert (∃ reps, resolve [1; 3] [2; 2; 3] = Ok reps) as H2
    by (eexists; reflexivity).
  split; [exact H1|]. split; [exact H2|].
  exact (resolve_trans [3] [1; 3] [2; 2; 3] H1 H2).
Defined.

Lemma num_gtb_spec (a b : number) : gtb a b = true ↔ b < a.
Proof. apply (num_ltb_spec b a). Qed.

Lemma of_nat_nonneg (i : nat) : geb (of_nat i) 0 = true.
Proof.
  apply num_geb_spec. unfold of_nat, inject_Z, Qle. cbn. lia.
Qed.

Lemma tiling_axes_mem (reps : list number) (a : number) :
  a ∈ tiling_axes reps ↔
  ∃ i r, a = of_nat i ∧ reps !! i = Some r ∧ 1 < r.
Proof.
  unfold tiling_axes.
  rewrite list_elem_of_In, filter_In, <- list_elem_of_In, elem_of_lookup_imap.
  split.
  - intros [(i & r & -> & Hr) Hge]. exists i, r.
    destruct (gtb r 1) eqn:E; [|done].
    by apply num_gtb_spec in E.
  - intros (i & r & -> & Hr & Hgt). split; [|apply of_nat_nonneg].
    exists i, r. by apply num_gtb_spec in Hgt as ->.
Qed.

(** X5.  The axes to tile are the indices of the repetitions above 1, and
    nothing else: the mark -1 of the other axes is filtered out, axis 0 is
    not.  So no axis is to be tiled exactly when no repetition is above
    1. *)
Theorem tiling_axes_spec (reps : list number) :
  (∀ a, a ∈ tiling_axes reps ↔
        ∃ i r, a = of_nat i ∧ reps !! i = Some r ∧ 1 < r) ∧
  (tiling_axes reps = [] ↔ Forall (λ r, r <= 1) reps).
Proof.
  split; [apply tiling_axes_mem|]. split.
  - intros Hnil. apply Forall_lookup. intros i r Hr.
    destruct (Qlt_le_dec 1 r) as [Hgt|]; [|done].
    assert (of_nat i ∈ tiling_axes reps) as Hmem
      by (apply tiling_axes_mem; eauto).
    rewrite Hnil in Hmem. by apply elem_of_nil in Hmem.
  - intros Hall. apply tiling_axes_nil.
    eapply Forall_impl; [exact Hall|]. intros r Hr. cbn in Hr.
    destruct (gtb r 1) eqn:E; [|done].
    apply num_gtb_spec in E. by apply Qlt_not_le in E.
Qed.

Lemma tiling_axes_length (reps : list number) :
  (length (tiling_axes reps) =? 0)%nat = negb (existsb (λ r, gtb r 1) reps).
Proof.
  destruct (existsb (λ r, gtb r 1) reps) eqn:E; cbn [negb].
  - apply existsb_exists in E as (r & Hin & Hr).
    apply list_elem_of_In, list_elem_of_lookup in Hin as [i Hi].
    assert (of_nat i ∈ tiling_axes reps) as Hmem.
    { apply tiling_axes_mem. exists i, r. by apply num_gtb_spec in Hr. }
    destruct (tiling_axes reps); [by apply elem_of_nil in Hmem | done].
  - rewrite tiling_axes_nil; [done|].
    apply Forall_forall. intros r Hin%list_elem_of_In.
    destruct (gtb r 1) eqn:Hr; [|done].
    assert (existsb (λ r, gtb r 1) reps = true) as Hex
      by (apply existsb_exists; eauto).
    congruence.
Qed.

End ResolveMore.

(** * Further properties of broadcastTo *)

Module BroadcastMore.
Import BroadcastTo PadFacts LoopFacts ResolveFacts ResolveMore OpFacts.

Section WithEngine.
Context `{Engine}.

(** X6.  [broadcastTo] refuses a string tensor on entry.  On a well-formed
    numeric tensor it throws what [resolve] throws, without a [Tile] call.
    When [resolve] returns, it makes one [Tile] call, on the data of the
    tensor under the padded shape and with the repetitions as attributes,
    and returns the answer, if some repetition is above 1; otherwise it
    returns a copy of that tensor and makes no [Tile] call. *)
Theorem broadcastTo_outcome (x : Tensor) (shape_ : list number) :
  let run := broadcastTo_ x shape_ in
  (dtype x = string_ →
   run = ([], Throw (ArgumentDtype "broadcastTo" "x" string_))) ∧
  (dtype x ≠ string_ → valid_shape (shape x) →
   match resolve (shape x) shape_ with
   | Throw e => snd run = Throw e ∧ calls Tile (fst run) = []
   | Ok reps =>
       ∃ input,
         shape input = padShape (shape x) shape_ ∧
         dtype input = dtype x ∧ values input = values x ∧
         if existsb (λ r, gtb r 1) reps
         then snd run = Ok (kernel Tile input (TileAttrs reps)) ∧
              calls Tile (fst run) = [RunKernel Tile input (TileAttrs reps)]
         else snd run = Ok (clone input) ∧ calls Tile (fst run) = []
   end).
Proof.
  intros run. split.
  { intros Hdt. unfold run, broadcastTo_. by rewrite convertToTensor_string. }
  intros Hdt Hx.
  destruct (BroadcastSpec.broadcastTo_resolve x shape_ Hdt Hx)
    as [Hshape Hrun].
  unfold run. rewrite Hrun.
  destruct (resolve (shape x) shape_) as [reps|e]; [|done].
  eexists. split; [exact Hshape|].
  split; [by destruct (_ <? _)%nat|]. split; [by destruct (_ <? _)%nat|].
  rewrite tiling_axes_length. by destruct (existsb _ reps).
Qed.

Lemma resolve_zero_extent (S : list number) (k : nat) (s : number) :
  valid_shape S → S !! k = Some s → s == 1 →
  ∃ reps, resolve S (<[k:=0]> S) = Ok reps ∧ Forall (λ r, r <= 1) reps.
Proof.
  intros Hv Hk Hs. set (T := <[k:=0]> S).
  assert (length T = length S) as HT by apply length_insert.
  assert (padShape S T = S) as HP by by apply padShape_same_rank.
  destruct (resolve_returns_intro S T) as [reps Hres].
  { by apply Forall_insert. } { lia. }
  { rewrite HP. intros i p t Hp Ht. destruct (decide (i = k)) as [->|Hne].
    - right. rewrite Hk in Hp. by injection Hp as <-.
    - left. unfold T in Ht. rewrite list_lookup_insert_ne in Ht by done.
      rewrite Hp in Ht. by injection Ht as <-. }
  exists reps. split; [done|].
  pose proof (resolve_length _ _ _ Hres) as Hlen.
  apply resolve_returns_inv in Hres as (_ & _ & Hax). rewrite HP in Hax.
  apply Forall_lookup. intros i r Hr.
  assert (i < length S)%nat as Hi
    by (rewrite <- HT, <- Hlen; by eapply lookup_lt_Some).
  destruct (lookup_lt_is_Some_2 S i Hi) as [p Hp].
  destruct (lookup_lt_is_Some_2 T i) as [t Ht]; [lia|].
  destruct (Hax i p t Hp Ht) as (_ & Heq & Hne).
  destruct (Qeq_dec p t) as [Hpt|Hpt].
  - rewrite Heq in Hr by done. by injection Hr as <-.
  - rewrite Hne in Hr by done. injection Hr as <-.
    destruct (decide (i = k)) as [->|Hik].
    + unfold T in Ht. rewrite list_lookup_insert_eq in Ht
        by (by eapply lookup_lt_Some).
      by injection Ht as <-.
    + unfold T in Ht. rewrite list_lookup_insert_ne in Ht by done.
      rewrite Hp in Ht. injection Ht as <-. by destruct Hpt.
Qed.

(** X7.  A target extent of 0 is not realised.  When the target is the
    shape of a numeric tensor with one extent 1 lowered to 0, [broadcastTo]
    makes no [Tile] call and returns a copy of the tensor, with its own
    shape and not the target. *)
Theorem broadcastTo_zero_extent (x : Tensor) (k : nat) (s : number) :
  dtype x ≠ string_ →
  valid_shape (shape x) → shape x !! k = Some s → s == 1 →
  let run := broadcastTo_ x (<[k:=0]> (shape x)) in
  snd run = Ok (clone x) ∧ calls Tile (fst run) = [] ∧
  shape (clone x) !! k = Some s ∧
  <[k:=0]> (shape x) !! k = Some 0.
Proof.
  intros Hdt Hv Hk Hs run.
  destruct (resolve_zero_extent (shape x) k s Hv Hk Hs) as (reps & Hres & Hle).
  destruct (BroadcastSpec.broadcastTo_resolve x (<[k:=0]> (shape x)) Hdt Hv)
    as [_ Hrun].
  unfold run.
  rewrite Hrun, Hres. unfold rank. rewrite length_insert, Nat.ltb_irrefl.
  rewrite tiling_axes_nil.
  - split; [done|]. split; [done|]. split; [done|].
    apply list_lookup_insert_eq. by eapply lookup_lt_Some.
  - eapply Forall_impl; [exact Hle|]. intros r Hr. cbn in Hr.
    destruct (gtb r 1) eqn:E; [|done].
    apply num_gtb_spec in E. by apply Qlt_not_le in E.
Qed.

End WithEngine.

Lemma broadcastTo_outcome_witness :
  dtype Backend.vector3 ≠ string_ ∧ valid_shape (shape Backend.vector3) ∧
  ∃ input,
    shape input = [1; 3] ∧
    dtype input = float32 ∧ values input = [7; 8; 9] ∧
    snd (@broadcastTo_ Backend.engine Backend.vector3 [2; 3])
    = Ok (@kernel Backend.engine Tile input (TileAttrs [2; 1])) ∧
    calls Tile (fst (@broadcastTo_ Backend.engine Backend.vector3 [2; 3]))
    = [RunKernel Tile input (TileAttrs [2; 1])].
Proof.
  assert (dtype Backend.vector3 ≠ string_) as Hdt by discriminate.
  assert (valid_shape (shape Backend.vector3)) as Hv by (repeat constructor).
  split; [exact Hdt|]. split; [exact Hv|].
  exact (proj2 (@broadcastTo_outcome Backend.engine Backend.vector3 [2; 3])
           Hdt Hv).
Defined.

Lemma broadcastTo_zero_extent_witness :
  dtype Backend.unit_row ≠ string_ ∧ valid_shape (shape Backend.unit_row) ∧
  snd (@broadcastTo_ Backend.engine Backend.unit_row [0; 3])
  = Ok Backend.unit_row.
Proof.
  assert (dtype Backend.unit_row ≠ string_) as Hdt by discriminate.
  assert (valid_shape (shape Backend.unit_row)) as Hv by (repeat constructor).
  split; [exact Hdt|]. split; [exact Hv|].
  exact (proj1 (@broadcastTo_zero_extent Backend.engine Backend.unit_row 0 1
                  Hdt Hv eq_refl (Qeq_refl 1))).
Defined.

End BroadcastMore.

(** * Further properties of transpose *)

Module TransposeMore.
Import TransposeOp TransposeSpec OpFacts.

Lemma of_nat_lt (i n : nat) : (i < n)%nat → of_nat i < of_nat n.
Proof. intros Hi. unfold of_nat, inject_Z, Qlt. cbn. lia. Qed.

Lemma default_perm_seq (x : Tensor) :
  default_perm x = of_nat <$> reverse (seq 0 (rank x)).
Proof. unfold default_perm, rank. by rewrite imap_seq_0, fmap_reverse. Qed.

Lemma default_perm_in_range (x : Tensor) :
  Forall (axis_in_range x) (default_perm x).
Proof.
  rewrite default_perm_seq. apply Forall_fmap, Forall_reverse, Forall_seq.
  intros i [_ Hi]. split.
  - apply num_geb_spec, ResolveMore.of_nat_nonneg.
  - by apply of_nat_lt.
Qed.

Section WithEngine.
Context `{Engine}.

(** X8.  What [transpose] refuses, for a tensor of any rank and in this
    order: a string tensor; then a [perm] of the wrong length; then a
    [perm] with an entry below 0 or not below the rank.  In all three
    cases no kernel has been run. *)
Theorem transpose_rejects (x : Tensor) (perm : list number)
    (conjugate : bool) :
  (dtype x = string_ →
   transpose_ x (Some perm) conjugate
   = ([], Throw (ArgumentDtype "x" "transpose" string_))) ∧
  (dtype x ≠ string_ → length perm ≠ rank x →
   transpose_ x (Some perm) conjugate
   = ([], Throw (TransposeRank (rank x) perm))) ∧
  (dtype x ≠ string_ →
   length perm = rank x → ¬ Forall (axis_in_range x) perm →
   transpose_ x (Some perm) conjugate
   = ([], Throw (TransposePermRange (rank x) perm))).
Proof.
  split; [apply transpose_string|]. split.
  - intros Hdt Hlen. unfold transpose_.
    rewrite convertToTensor_numeric, Op_bind_lift_Ok by done.
    by replace (rank x =? length perm)%nat with false
      by (symmetry; apply Nat.eqb_neq; congruence).
  - intros Hdt Hlen Hrange. by apply transpose_out_of_range.
Qed.

Lemma transpose_checked (x : Tensor) (perm : list number) (conjugate : bool) :
  (1 < rank x)%nat → dtype x ≠ complex64 → dtype x ≠ string_ →
  length perm = rank x → Forall (axis_in_range x) perm →
  transpose_ x (Some perm) conjugate
  = ([RunKernel Transpose x (TransposeAttrs perm)],
     Ok (kernel Transpose x (TransposeAttrs perm))).
Proof.
  intros Hrank Hdt Hstr Hlen Hrange. unfold transpose_.
  rewrite convertToTensor_numeric, Op_bind_lift_Ok by done.
  rewrite Hlen, Nat.eqb_refl. cbn [assert lift].
  apply axis_check_spec in Hrange. rewrite forEach_assert, Hrange.
  replace (rank x <=? 1)%nat with false
    by (symmetry; apply Nat.leb_gt; lia).
  by destruct (dtype x).
Qed.

(** X9.  For a tensor of rank 2 or more that is neither complex nor a
    string tensor, any [perm] as long as the rank with entries from 0 up
    to the rank, be it a permutation of the axes or not, leads to one run
    of the [Transpose] kernel, and no other, on the tensor itself with
    that [perm]; [conjugate] plays no part. *)
Theorem transpose_dispatch (x : Tensor) (perm : list number)
    (conjugate : bool) :
  (1 < rank x)%nat → dtype x ≠ complex64 → dtype x ≠ string_ →
  length perm = rank x → Forall (axis_in_range x) perm →
  transpose_ x (Some perm) conjugate
  = ([RunKernel Transpose x (TransposeAttrs perm)],
     Ok (kernel Transpose x (TransposeAttrs perm))) ∧
  transpose_ x (Some perm) conjugate
  = transpose_ x (Some perm) (negb conjugate).
Proof.
  intros Hrank Hdt Hstr Hlen Hrange.
  by rewrite !transpose_checked.
Qed.

(** X10.  Without [perm], the axes are reversed, and a tensor that is
    neither complex nor a string tensor is never refused: it is copied,
    without a [Transpose] call, when its rank is at most 1, and otherwise
    goes through the [Transpose] kernel once, with the axes
    [rank-1, ..., 0]. *)
Theorem transpose_default (x : Tensor) (conjugate : bool) :
  dtype x ≠ complex64 → dtype x ≠ string_ →
  let perm := of_nat <$> reverse (seq 0 (rank x)) in
  let run := transpose_ x None conjugate in
  ((rank x ≤ 1)%nat →
   snd run = Ok (clone x) ∧ calls Transpose (fst run) = []) ∧
  ((1 < rank x)%nat →
   run = ([RunKernel Transpose x (TransposeAttrs perm)],
          Ok (kernel Transpose x (TransposeAttrs perm)))).
Proof.
  intros Hdt Hstr perm run. split.
  - intros Hle. unfold run. by rewrite transpose_default_low_rank.
  - intros Hgt.
    pose proof (transpose_checked x (default_perm x) conjugate Hgt Hdt Hstr)
      as Hrun.
    unfold run, perm. rewrite <- default_perm_seq. rewrite <- Hrun.
    + unfold transpose_.
      by rewrite !convertToTensor_numeric, !Op_bind_lift_Ok.
    + unfold default_perm, rank. by rewrite length_reverse, length_imap.
    + apply default_perm_in_range.
Qed.

End WithEngine.

Lemma transpose_rejects_witness :
  dtype Backend.matrix23 ≠ string_ ∧ length [0] ≠ rank Backend.matrix23 ∧
  @transpose_ Backend.engine Backend.matrix23 (Some [0]) false
  = ([], Throw (TransposeRank 2 [0])).
Proof.
  assert (dtype Backend.matrix23 ≠ string_) as Hdt by discriminate.
  assert (length [0] ≠ rank Backend.matrix23) as Hlen by (cbn; lia).
  split; [exact Hdt|]. split; [exact Hlen|].
  exact (proj1 (proj2 (@transpose_rejects Backend.engine Backend.matrix23
                         [0] false)) Hdt Hlen).
Defined.

Lemma transpose_dispatch_witness :
  (1 < rank Backend.matrix23)%nat ∧
  @transpose_ Backend.engine Backend.matrix23 (Some [0; 0]) true
  = ([RunKernel Transpose Backend.matrix23 (TransposeAttrs [0; 0])],
     Ok (@kernel Backend.engine Transpose Backend.matrix23
           (TransposeAttrs [0; 0]))).
Proof.
  assert (1 < rank Backend.matrix23)%nat as Hrank by (cbn; lia).
  split; [exact Hrank|].
  refine (proj1 (@transpose_dispatch Backend.engine Backend.matrix23 [0; 0]
                   true Hrank _ _ eq_refl _)).
  - discriminate.
  - discriminate.
  - repeat constructor; discriminate.
Defined.

Lemma transpose_default_witness :
  dtype Backend.matrix23 ≠ complex64 ∧ dtype Backend.matrix23 ≠ string_ ∧
  @transpose_ Backend.engine Backend.matrix23 None false
  = ([RunKernel Transpose Backend.matrix23 (TransposeAttrs [1; 0])],
     Ok (@kernel Backend.engine Transpose Backend.matrix23
           (TransposeAttrs [1; 0]))).
Proof.
  assert (dtype Backend.matrix23 ≠ complex64) as Hdt by discriminate.
  assert (dtype Backend.matrix23 ≠ string_) as Hstr by discriminate.
  assert (1 < rank Backend.matrix23)%nat as Hrank by (cbn; lia).
  split; [exact Hdt|]. split; [exact Hstr|].
  exact (proj2 (@transpose_default Backend.engine Backend.matrix23 false
                  Hdt Hstr) Hrank).
Defined.

End TransposeMore.

(** * Further properties of multinomial *)

Module MultinomialMore.
Import MultinomialOp MultinomialSpec OpFacts.

Section WithEngine.
Context `{Engine}.

(** X11.  The seed.  For numeric logits that pass the two checks, the
    seed the [Multinomial] kernel is run with is the value of
    [Math.random()] when [seed] is absent or is 0, and is [seed] itself
    when it is another number. *)
Theorem multinomial_seed (logits : Tensor) (numSamples : number)
    (seed : option number) (normalized : bool) (random : number) :
  dtype logits ≠ string_ → ¬ size logits < 2 → (rank logits ≤ 2)%nat →
  ∃ logits2D sd,
    calls Multinomial
      (fst (multinomial_ logits numSamples seed normalized random))
    = [RunKernel Multinomial logits2D
         (MultinomialAttrs numSamples sd normalized)] ∧
    (seed = None → sd = random) ∧
    (∀ s, seed = Some s → s == 0 → sd = random) ∧
    (∀ s, seed = Some s → ¬ s == 0 → sd = s).
Proof.
  intros Hdt Hsz Hrk. unfold multinomial_.
  rewrite convertToTensor_numeric, Op_bind_lift_Ok by done.
  destruct (ltb (size logits) 2) eqn:E; [by apply num_ltb_spec in E|].
  replace (2 <? rank logits)%nat with false
    by (symmetry; apply Nat.ltb_ge; lia).
  exists (if (rank logits =? 1)%nat then reshape logits [1; -1] else logits),
    (match seed with
     | Some s => if Qeq_bool s 0 then random else s
     | None => random
     end).
  split; [by destruct (rank logits =? 1)%nat|].
  split; [by intros ->|]. split.
  - intros s -> Hs. by apply Qeq_bool_iff in Hs as ->.
  - intros s -> Hs.
    destruct (Qeq_bool s 0) eqn:E0; [by apply Qeq_bool_iff in E0 | done].
Qed.

Lemma multinomial_rank1_run (logits : Tensor) (n numSamples : number)
    (seed : option number) (normalized : bool) (random : number) :
  dtype logits ≠ string_ → shape logits = [n] → ¬ n < 2 →
  ∃ sd,
    let logits2D :=
      {| shape := [1; n]; dtype := dtype logits; values := values logits |} in
    let attrs := MultinomialAttrs numSamples sd normalized in
    let res := kernel Multinomial logits2D attrs in
    multinomial_ logits numSamples seed normalized random
    = ([RunKernel Multinomial logits2D attrs],
       Ok {| shape := [size res]; dtype := dtype res; values := values res |}).
Proof.
  intros Hdt Hshape Hn. eexists. unfold multinomial_.
  rewrite convertToTensor_numeric, Op_bind_lift_Ok by done.
  assert (size logits = n) as Hsize.
  { unfold size. rewrite Hshape. cbn. apply Qmult_1_r_eq. }
  rewrite Hsize. unfold rank. rewrite Hshape. cbn [length].
  destruct (ltb n 2) eqn:E; [by apply num_ltb_spec in E|].
  cbn [Nat.ltb Nat.leb Nat.eqb].
  unfold reshape at 2. rewrite Hsize.
  replace (inferFromImplicitShape [1; -1] n) with [1; n].
  2: { unfold inferFromImplicitShape. cbn.
       change (1 * 1) with 1. by rewrite Qdiv_1_r_eq. }
  cbn [mbind Op_bind runKernel mret Op_ret app].
  unfold reshape. by rewrite infer_flat.
Qed.

(** X12.  Numeric logits of rank 1 with [n] entries, [n] at least 2: the
    [Multinomial] kernel is run once, on the same values under the shape
    [[1, n]], with [numSamples] and [normalized] as given, and whatever
    tensor it answers is returned flattened to rank 1. *)
Theorem multinomial_rank1 (logits : Tensor) (n numSamples : number)
    (seed : option number) (normalized : bool) (random : number) :
  dtype logits ≠ string_ → shape logits = [n] → ¬ n < 2 →
  ∃ sd,
    let logits2D :=
      {| shape := [1; n]; dtype := dtype logits; values := values logits |} in
    let attrs := MultinomialAttrs numSamples sd normalized in
    let res := kernel Multinomial logits2D attrs in
    let run := multinomial_ logits numSamples seed normalized random in
    snd run
    = Ok {| shape := [size res]; dtype := dtype res; values := values res |} ∧
    calls Multinomial (fst run) = [RunKernel Multinomial logits2D attrs].
Proof.
  intros Hdt Hshape Hn.
  destruct (multinomial_rank1_run logits n numSamples seed normalized random
              Hdt Hshape Hn) as [sd Hrun].
  exists sd. cbn zeta in *. rewrite Hrun. split; reflexivity.
Qed.

End WithEngine.

Lemma multinomial_seed_witness :
  dtype Backend.probs ≠ string_ ∧ ¬ size Backend.probs < 2 ∧
  ∃ logits2D sd,
    calls Multinomial
      (fst (@multinomial_ Backend.engine Backend.probs 3 (Some 0) false
              (1 # 2)))
    = [RunKernel Multinomial logits2D (MultinomialAttrs 3 sd false)] ∧
    (Some 0 = None → sd = 1 # 2) ∧
    (∀ s, Some 0 = Some s → s == 0 → sd = 1 # 2) ∧
    (∀ s, Some 0 = Some s → ¬ s == 0 → sd = s).
Proof.
  assert (dtype Backend.probs ≠ string_) as Hdt by discriminate.
  assert (¬ size Backend.probs < 2) as Hsz by discriminate.
  assert (rank Backend.probs ≤ 2)%nat as Hrk by (cbn; lia).
  split; [exact Hdt|]. split; [exact Hsz|].
  exact (@multinomial_seed Backend.engine Backend.probs 3 (Some 0) false
           (1 # 2) Hdt Hsz Hrk).
Defined.

Lemma multinomial_rank1_witness :
  dtype Backend.probs ≠ string_ ∧ shape Backend.probs = [2] ∧ ¬ 2 < 2 ∧
  ∃ sd,
    let logits2D :=
      {| shape := [1; 2]; dtype := float32; values := [3 # 4; 1 # 4] |} in
    let attrs := MultinomialAttrs 3 sd false in
    let res := @kernel Backend.engine Multinomial logits2D attrs in
    let run :=
      @multinomial_ Backend.engine Backend.probs 3 None false (1 # 2) in
    snd run
    = Ok {| shape := [size res]; dtype := dtype res; values := values res |} ∧
    calls Multinomial (fst run) = [RunKernel Multinomial logits2D attrs].
Proof.
  assert (dtype Backend.probs ≠ string_) as Hdt by discriminate.
  assert (¬ 2 < 2) as Hn by discriminate.
  split; [exact Hdt|]. split; [reflexivity|]. split; [exact Hn|].
  exact (@multinomial_rank1 Backend.engine Backend.probs 2 3 None false
           (1 # 2) Hdt eq_refl Hn).
Defined.

End MultinomialMore.

(** * maxPool3d, avgPool3dGrad, bincount, erf *)

Module OpsSpec.
Import Ops.

Lemma convert_numeric (x : Tensor) (argName functionName : string) :
  dtype x ≠ string_ →
  convertToTensor x argName functionName = ([], Returns x).
Proof. unfold convertToTensor. by destruct (dtype x). Qed.

Lemma convert_string (x : Tensor) (argName functionName : string) :
  dtype x = string_ →
  convertToTensor x argName functionName
  = ([], Throws (NotNumeric argName functionName string_)).
Proof. unfold convertToTensor. by intros ->. Qed.

Lemma Run_bind_ret {A B} (a : A) (k : A → Run B) :
  (([], Returns a) : Run A) ≫= k = k a.
Proof. unfold mbind, Run_bind. by destruct (k a). Qed.

(** A leading axis of extent 1 put before the four axes of a well-formed
    tensor of rank 4. *)
Lemma reshape_to_5D (x : Tensor) (a b c d : number) :
  shape x = [a; b; c; d] → valid_shape [a; b; c; d] →
  reshape_to x [Some 1; extent x 0; extent x 1; extent x 2; extent x 3]
  = Returns {| shape := [1; a; b; c; d]; dtype := dtype x;
               values := values x |}.
Proof.
  intros Hx Hv. unfold reshape_to, extent, reshape. rewrite Hx.
  cbn [lookup list_lookup mapM mbind option_bind mret option_ret id].
  assert (valid_shape [1; a; b; c; d]) as Hv5 by by constructor.
  rewrite (BroadcastSpec.inferFromImplicitShape_valid _ _ Hv5).
  unfold size. rewrite Hx.
  change (sizeFromShape [1; a; b; c; d]) with (1 * sizeFromShape [a; b; c; d]).
  by rewrite MultinomialSpec.Qmult_1_l_eq, Qeq_bool_refl.
Qed.

(** The way back: the leading axis of extent 1 is dropped. *)
Lemma reshape_to_4D (res : Tensor) (a b c d : number) :
  shape res = [1; a; b; c; d] → valid_shape [a; b; c; d] →
  reshape_to res [extent res 1; extent res 2; extent res 3; extent res 4]
  = Returns {| shape := [a; b; c; d]; dtype := dtype res;
               values := values res |}.
Proof.
  intros Hx Hv. unfold reshape_to, extent, reshape. rewrite Hx.
  cbn [lookup list_lookup mapM mbind option_bind mret option_ret id].
  rewrite (BroadcastSpec.inferFromImplicitShape_valid _ _ Hv).
  unfold size. rewrite Hx.
  change (sizeFromShape [1; a; b; c; d]) with (1 * sizeFromShape [a; b; c; d]).
  by rewrite MultinomialSpec.Qmult_1_l_eq, Qeq_bool_refl.
Qed.

Section WithDispatcher.
Context `{Dispatcher}.

(** X13.  What [maxPool3d] refuses before the padding check and before any
    kernel is run, in this order: a string tensor; a tensor whose rank is
    neither 4 nor 5; and, for a tensor of rank 5, the data format
    NCDHW. *)
Theorem maxPool3d_guards (x : Tensor) (filterSize : option Size3)
    (strides : Size3) (pad : Pad) (dimRoundingMode : option RoundingMode) :
  (dtype x = string_ → ∀ dataFormat,
     maxPool3d_ x filterSize strides pad dimRoundingMode dataFormat
     = ([], Throws (NotNumeric "x" "maxPool3d" string_))) ∧
  (dtype x ≠ string_ → rank x ≠ 4%nat → rank x ≠ 5%nat → ∀ dataFormat,
     maxPool3d_ x filterSize strides pad dimRoundingMode dataFormat
     = ([], Throws (MaxPool3dRank (rank x)))) ∧
  (dtype x ≠ string_ → rank x = 5%nat →
     maxPool3d_ x filterSize strides pad dimRoundingMode (Some NCDHW)
     = ([], Throws (MaxPool3dDataFormat NCDHW))).
Proof.
  unfold maxPool3d_. split; [|split].
  - intros Hdt dataFormat. by rewrite convert_string.
  - intros Hdt H4 H5 dataFormat.
    rewrite convert_numeric, Run_bind_ret by done.
    apply Nat.eqb_neq in H4 as ->. cbn [mbind Run_bind mret Run_ret].
    by apply Nat.eqb_neq in H5 as ->.
  - intros Hdt H5. rewrite convert_numeric, Run_bind_ret by done.
    replace (rank x =? 4)%nat with false by by rewrite H5.
    cbn [mbind Run_bind mret Run_ret]. by rewrite H5.
Qed.

(** X14.  A numeric tensor of rank 5 that passes the checks goes to the
    [MaxPool3D] kernel as it is, in the one kernel call that is made, and
    the answer of the kernel is returned as it is.  An absent [filterSize]
    reaches the kernel as [[1, 1, 1]] and an absent [dataFormat] as
    NDHWC. *)
Theorem maxPool3d_rank5 (x : Tensor) (filterSize : option Size3)
    (strides : Size3) (pad : Pad) (dimRoundingMode : option RoundingMode)
    (dataFormat : option DataFormat) :
  dtype x ≠ string_ →
  rank x = 5%nat → default NDHWC dataFormat = NDHWC →
  checkPadOnDimRoundingMode maxPool3d pad dimRoundingMode = Returns tt →
  let attrs :=
    MaxPool3DAttrs (default (Triple 1 1 1) filterSize) strides pad
                   dimRoundingMode NDHWC in
  maxPool3d_ x filterSize strides pad dimRoundingMode dataFormat
  = ([Ran MaxPool3D (MaxPool3DInputs x) attrs],
     Returns (kernel MaxPool3D (MaxPool3DInputs x) attrs)).
Proof.
  intros Hdt H5 Hdf Hpad attrs. unfold maxPool3d_.
  rewrite convert_numeric, Run_bind_ret by done.
  replace (rank x =? 4)%nat with false by by rewrite H5.
  cbn [mbind Run_bind mret Run_ret]. by rewrite H5, Hdf, Hpad.
Qed.

Lemma maxPool3d_rank4_run (x : Tensor) (filterSize : option Size3)
    (strides : Size3) (pad : Pad) (dimRoundingMode : option RoundingMode)
    (dataFormat : option DataFormat) (a b c d : number) :
  dtype x ≠ string_ →
  shape x = [a; b; c; d] → valid_shape [a; b; c; d] →
  default NDHWC dataFormat = NDHWC →
  checkPadOnDimRoundingMode maxPool3d pad dimRoundingMode = Returns tt →
  let x5D :=
    {| shape := [1; a; b; c; d]; dtype := dtype x; values := values x |} in
  let attrs :=
    MaxPool3DAttrs (default (Triple 1 1 1) filterSize) strides pad
                   dimRoundingMode NDHWC in
  let res := kernel MaxPool3D (MaxPool3DInputs x5D) attrs in
  ∀ d' h' w' c', shape res = [1; d'; h'; w'; c'] →
    valid_shape [d'; h'; w'; c'] →
    maxPool3d_ x filterSize strides pad dimRoundingMode dataFormat
    = ([Ran MaxPool3D (MaxPool3DInputs x5D) attrs],
       Returns {| shape := [d'; h'; w'; c']; dtype := dtype res;
                  values := values res |}).
Proof.
  intros Hdt Hx Hv Hdf Hpad x5D attrs res d' h' w' c' Hres Hv'.
  unfold maxPool3d_.
  rewrite convert_numeric, Run_bind_ret by done.
  replace (rank x =? 4)%nat with true by (unfold rank; by rewrite Hx).
  rewrite (reshape_to_5D x a b c d Hx Hv).
  cbn [lift mbind Run_bind mret Run_ret app]. fold x5D.
  rewrite Hdf, Hpad.
  cbn [lift mbind Run_bind mret Run_ret app runKernel assert rank shape
       length Nat.eqb].
  fold attrs. fold res.
  by rewrite (reshape_to_4D res d' h' w' c' Hres Hv').
Qed.

(** X15.  A well-formed numeric tensor of rank 4 is pooled as a batch of
    one: the [MaxPool3D] kernel is run once, on the same values under
    the shape with a 1 in front, and when it answers a batch of one, of
    shape [[1, d, h, w, c]], the result is that answer without the batch
    axis, of rank 4. *)
Theorem maxPool3d_rank4 (x : Tensor) (filterSize : option Size3)
    (strides : Size3) (pad : Pad) (dimRoundingMode : option RoundingMode)
    (dataFormat : option DataFormat) (a b c d : number) :
  dtype x ≠ string_ →
  shape x = [a; b; c; d] → valid_shape [a; b; c; d] →
  default NDHWC dataFormat = NDHWC →
  checkPadOnDimRoundingMode maxPool3d pad dimRoundingMode = Returns tt →
  let x5D :=
    {| shape := [1; a; b; c; d]; dtype := dtype x; values := values x |} in
  let attrs :=
    MaxPool3DAttrs (default (Triple 1 1 1) filterSize) strides pad
                   dimRoundingMode NDHWC in
  let res := kernel MaxPool3D (MaxPool3DInputs x5D) attrs in
  let run := maxPool3d_ x filterSize strides pad dimRoundingMode dataFormat in
  ∀ d' h' w' c', shape res = [1; d'; h'; w'; c'] →
    valid_shape [d'; h'; w'; c'] →
    snd run = Returns {| shape := [d'; h'; w'; c']; dtype := dtype res;
                         values := values res |} ∧
    calls MaxPool3D (fst run) = [Ran MaxPool3D (MaxPool3DInputs x5D) attrs].
Proof.
  intros Hdt Hx Hv Hdf Hpad x5D attrs res run d' h' w' c' Hres Hv'.
  unfold run.
  rewrite (maxPool3d_rank4_run x filterSize strides pad dimRoundingMode
             dataFormat a b c d Hdt Hx Hv Hdf Hpad d' h' w' c' Hres Hv').
  split; reflexivity.
Qed.


Lemma avgPool3dGrad_rank4_run (dy input : Tensor)
    (filterSize strides : Size3)
    (pad : Pad) (dimRoundingMode : option RoundingMode)
    (a b c d a' b' c' d' : number) :
  dtype dy ≠ string_ → dtype input ≠ string_ →
  shape dy = [a; b; c; d] → valid_shape [a; b; c; d] →
  shape input = [a'; b'; c'; d'] → valid_shape [a'; b'; c'; d'] →
  checkPadOnDimRoundingMode avgPool3dGrad pad dimRoundingMode = Returns tt →
  let dy5D :=
    {| shape := [1; a; b; c; d]; dtype := dtype dy; values := values dy |} in
  let input5D :=
    {| shape := [1; a'; b'; c'; d']; dtype := dtype input;
       values := values input |} in
  let attrs := AvgPool3DGradAttrs filterSize strides pad dimRoundingMode in
  let res := kernel AvgPool3DGrad (AvgPool3DGradInputs dy5D input5D) attrs in
  ∀ e f g h, shape res = [1; e; f; g; h] → valid_shape [e; f; g; h] →
    avgPool3dGrad_ dy input filterSize strides pad dimRoundingMode
    = ([Ran AvgPool3DGrad (AvgPool3DGradInputs dy5D input5D) attrs],
       Returns {| shape := [e; f; g; h]; dtype := dtype res;
                  values := values res |}).
Proof.
  intros Hsdy Hsin Hdy Hvdy Hin Hvin Hpad dy5D input5D attrs res
    e f g h Hres Hv'.
  unfold avgPool3dGrad_.
  rewrite (convert_numeric dy), Run_bind_ret by done.
  rewrite (convert_numeric input), Run_bind_ret by done.
  replace (rank input =? 4)%nat with true by (unfold rank; by rewrite Hin).
  rewrite (reshape_to_5D dy a b c d Hdy Hvdy).
  rewrite (reshape_to_5D input a' b' c' d' Hin Hvin).
  cbn [lift mbind Run_bind mret Run_ret app]. fold dy5D. fold input5D.
  rewrite Hpad.
  cbn [lift mbind Run_bind mret Run_ret app runKernel assert rank shape
       length Nat.eqb].
  fold attrs. fold res.
  by rewrite (reshape_to_4D res e f g h Hres Hv').
Qed.

(** X17.  Well-formed numeric [dy] and [input] of rank 4 are both taken as
    batches of one: the [AvgPool3DGrad] kernel is run once, on the two
    under shapes with a 1 in front, and when it answers a batch of one
    the result is that answer without the batch axis. *)
Theorem avgPool3dGrad_rank4 (dy input : Tensor) (filterSize strides : Size3)
    (pad : Pad) (dimRoundingMode : option RoundingMode)
    (a b c d a' b' c' d' : number) :
  dtype dy ≠ string_ → dtype input ≠ string_ →
  shape dy = [a; b; c; d] → valid_shape [a; b; c; d] →
  shape input = [a'; b'; c'; d'] → valid_shape [a'; b'; c'; d'] →
  checkPadOnDimRoundingMode avgPool3dGrad pad dimRoundingMode = Returns tt →
  let dy5D :=
    {| shape := [1; a; b; c; d]; dtype := dtype dy; values := values dy |} in
  let input5D :=
    {| shape := [1; a'; b'; c'; d']; dtype := dtype input;
       values := values input |} in
  let attrs := AvgPool3DGradAttrs filterSize strides pad dimRoundingMode in
  let res := kernel AvgPool3DGrad (AvgPool3DGradInputs dy5D input5D) attrs in
  let run := avgPool3dGrad_ dy input filterSize strides pad dimRoundingMode in
  ∀ e f g h, shape res = [1; e; f; g; h] → valid_shape [e; f; g; h] →
    snd run = Returns {| shape := [e; f; g; h]; dtype := dtype res;
                         values := values res |} ∧
    calls AvgPool3DGrad (fst run)
    = [Ran AvgPool3DGrad (AvgPool3DGradInputs dy5D input5D) attrs].
Proof.
  intros Hsdy Hsin Hdy Hvdy Hin Hvin Hpad dy5D input5D attrs res run
    e f g h Hres Hv'.
  unfold run.
  rewrite (avgPool3dGrad_rank4_run dy input filterSize strides pad
             dimRoundingMode a b c d a' b' c' d' Hsdy Hsin Hdy Hvdy Hin Hvin
             Hpad e f g h Hres Hv').
  split; reflexivity.
Qed.

(** X18.  The checks of [bincount], in their order, each before any kernel
    is run: [x] is not a string tensor, nor is [weights]; the dtype of [x]
    is int32; [size] is not negative; and the size of [weights] is that of
    [x] or 0.  When they pass, the [Bincount] kernel is run once, and no
    other, on [x] and [weights] with [size]. *)
Theorem bincount_checks (x weights : Tensor) (size_ : number) :
  let run := bincount_ x weights size_ in
  (dtype x = string_ →
   run = ([], Throws (NotNumeric "x" "bincount" string_))) ∧
  (dtype x ≠ string_ → dtype weights = string_ →
   run = ([], Throws (NotNumeric "weights" "bincount" string_))) ∧
  (dtype x ≠ string_ → dtype weights ≠ string_ → dtype x ≠ int32 →
   run = ([], Throws (BincountDtype (dtype x)))) ∧
  (dtype weights ≠ string_ → dtype x = int32 → size_ < 0 →
   run = ([], Throws (BincountSize size_))) ∧
  (dtype weights ≠ string_ → dtype x = int32 → 0 <= size_ →
   ¬ size weights == size x → ¬ size weights == 0 →
   run = ([], Throws (BincountWeights (shape x) (shape weights)))) ∧
  (dtype weights ≠ string_ → dtype x = int32 → 0 <= size_ →
   size weights == size x ∨ size weights == 0 →
   run = ([Ran Bincount (BincountInputs x weights) (BincountAttrs size_)],
          Returns (kernel Bincount (BincountInputs x weights)
                     (BincountAttrs size_)))).
Proof.
  intros run. unfold run, bincount_.
  split; [|split; [|split; [|split; [|split]]]].
  - intros Hx. by rewrite (convert_string x).
  - intros Hx Hw. rewrite (convert_numeric x), Run_bind_ret by done.
    by rewrite (convert_string weights).
  - intros Hx Hw Hdt.
    rewrite (convert_numeric x), Run_bind_ret by done.
    rewrite (convert_numeric weights), Run_bind_ret by done.
    by destruct (dtype x).
  - intros Hw Hx Hneg.
    rewrite (convert_numeric x), Run_bind_ret by (by rewrite Hx).
    rewrite (convert_numeric weights), Run_bind_ret by done.
    rewrite Hx. cbn [assert mbind Run_bind mret Run_ret app].
    replace (geb size_ 0) with false; [done|].
    symmetry. apply not_true_iff_false. rewrite num_geb_spec.
    by apply Qlt_not_le.
  - intros Hw Hx Hpos Hne Hnz.
    rewrite (convert_numeric x), Run_bind_ret by (by rewrite Hx).
    rewrite (convert_numeric weights), Run_bind_ret by done.
    rewrite Hx. apply num_geb_spec in Hpos as ->.
    cbn [assert mbind Run_bind mret Run_ret app].
    replace (Qeq_bool (size weights) (size x)) with false
      by (symmetry; apply not_true_iff_false; by rewrite Qeq_bool_iff).
    replace (Qeq_bool (size weights) 0) with false
      by (symmetry; apply not_true_iff_false; by rewrite Qeq_bool_iff).
    done.
  - intros Hw Hx Hpos Hsz.
    rewrite (convert_numeric x), Run_bind_ret by (by rewrite Hx).
    rewrite (convert_numeric weights), Run_bind_ret by done.
    rewrite Hx. apply num_geb_spec in Hpos as ->.
    cbn [assert mbind Run_bind mret Run_ret app].
    replace (Qeq_bool (size weights) (size x) || Qeq_bool (size weights) 0)
      with true; [done|].
    symmetry. apply orb_true_iff. by rewrite !Qeq_bool_iff.
Qed.

(** X19.  [erf] refuses a string tensor on entry, and then every dtype but
    int32 and float32, before anything is run.  A float32 tensor goes to
    the [Erf] kernel as it is, in the one kernel call that is made.  An
    int32 tensor is first cast to float32: the kernel is run on what
    [cast] returns, after whatever [cast] runs, and not at all when
    [cast] throws. *)
Theorem erf_dtype (x : Tensor) :
  (dtype x = string_ → erf_ x = ([], Throws (NotNumeric "x" "erf" string_))) ∧
  (dtype x = bool_ ∨ dtype x = complex64 → erf_ x = ([], Throws ErfDtype)) ∧
  (dtype x = float32 →
   erf_ x = ([Ran Erf (ErfInputs x) NoAttrs],
             Returns (kernel Erf (ErfInputs x) NoAttrs))) ∧
  (dtype x = int32 → ∀ t,
   (∀ x', cast x float32 = (t, Returns x') →
      erf_ x = (t ++ [Ran Erf (ErfInputs x') NoAttrs],
                Returns (kernel Erf (ErfInputs x') NoAttrs))) ∧
   (∀ f, cast x float32 = (t, Throws f) → erf_ x = (t, Throws f))).
Proof.
  unfold erf_. split; [|split; [|split]].
  - intros Hdt. by rewrite convert_string.
  - intros Hdt.
    rewrite convert_numeric, Run_bind_ret by (destruct Hdt; congruence).
    by destruct Hdt as [-> | ->].
  - intros Hdt.
    rewrite convert_numeric, Run_bind_ret by congruence. by rewrite Hdt.
  - intros Hdt t.
    rewrite convert_numeric, Run_bind_ret by congruence. rewrite Hdt.
    cbn [assert mbind Run_bind mret Run_ret app].
    split; [intros x' ->|intros f ->]; done.
Qed.

End WithDispatcher.

Lemma maxPool3d_guards_witness :
  dtype Backend.matrix23 ≠ string_ ∧
  rank Backend.matrix23 ≠ 4%nat ∧ rank Backend.matrix23 ≠ 5%nat ∧
  @maxPool3d_ dispatcher Backend.matrix23 None (Single 1) PadValid None None
  = ([], Throws (MaxPool3dRank 2)).
Proof.
  assert (dtype Backend.matrix23 ≠ string_) as Hdt by discriminate.
  assert (rank Backend.matrix23 ≠ 4%nat) as H4 by (cbn; lia).
  assert (rank Backend.matrix23 ≠ 5%nat) as H5 by (cbn; lia).
  split; [exact Hdt|]. split; [exact H4|]. split; [exact H5|].
  exact (proj1 (proj2 (@maxPool3d_guards dispatcher Backend.matrix23 None
                         (Single 1) PadValid None)) Hdt H4 H5 None).
Defined.

Lemma maxPool3d_rank5_witness :
  dtype five ≠ string_ ∧ rank five = 5%nat ∧
  @maxPool3d_ dispatcher five None (Single 2) PadValid None None
  = ([Ran MaxPool3D (MaxPool3DInputs five)
        (MaxPool3DAttrs (Triple 1 1 1) (Single 2) PadValid None NDHWC)],
     Returns five).
Proof.
  assert (dtype five ≠ string_) as Hdt by discriminate.
  split; [exact Hdt|]. split; [reflexivity|].
  exact (@maxPool3d_rank5 dispatcher five None (Single 2) PadValid None None
           Hdt eq_refl eq_refl eq_refl).
Defined.

Lemma maxPool3d_rank4_witness :
  dtype volume ≠ string_ ∧
  shape volume = [1; 2; 2; 1] ∧ valid_shape [1; 2; 2; 1] ∧
  snd (@maxPool3d_ dispatcher volume None (Single 2) PadValid None None)
  = Returns volume ∧
  calls MaxPool3D
    (fst (@maxPool3d_ dispatcher volume None (Single 2) PadValid None None))
  = [Ran MaxPool3D (MaxPool3DInputs five)
       (MaxPool3DAttrs (Triple 1 1 1) (Single 2) PadValid None NDHWC)].
Proof.
  assert (dtype volume ≠ string_) as Hdt by discriminate.
  assert (valid_shape [1; 2; 2; 1]) as Hv by (repeat constructor).
  split; [exact Hdt|]. split; [reflexivity|]. split; [exact Hv|].
  exact (@maxPool3d_rank4 dispatcher volume None (Single 2) PadValid None
           None 1 2 2 1 Hdt eq_refl Hv eq_refl eq_refl 1 2 2 1 eq_refl Hv).
Defined.


Lemma avgPool3dGrad_rank4_witness :
  dtype volume ≠ string_ ∧
  shape volume = [1; 2; 2; 1] ∧ valid_shape [1; 2; 2; 1] ∧
  snd (@avgPool3dGrad_ dispatcher volume volume (Single 2) (Single 1)
         PadValid None)
  = Returns volume ∧
  calls AvgPool3DGrad
    (fst (@avgPool3dGrad_ dispatcher volume volume (Single 2) (Single 1)
            PadValid None))
  = [Ran AvgPool3DGrad (AvgPool3DGradInputs five five)
       (AvgPool3DGradAttrs (Single 2) (Single 1) PadValid None)].
Proof.
  assert (dtype volume ≠ string_) as Hdt by discriminate.
  assert (valid_shape [1; 2; 2; 1]) as Hv by (repeat constructor).
  split; [exact Hdt|]. split; [reflexivity|]. split; [exact Hv|].
  exact (@avgPool3dGrad_rank4 dispatcher volume volume (Single 2) (Single 1)
           PadValid None 1 2 2 1 1 2 2 1 Hdt Hdt eq_refl Hv eq_refl Hv eq_refl
           1 2 2 1 eq_refl Hv).
Defined.

Lemma bincount_checks_witness :
  dtype no_weights ≠ string_ ∧
  dtype counts = int32 ∧ 0 <= 4 ∧ size no_weights == 0 ∧
  @bincount_ dispatcher counts no_weights 4
  = ([Ran Bincount (BincountInputs counts no_weights) (BincountAttrs 4)],
     Returns (@kernel dispatcher Bincount (BincountInputs counts no_weights)
                (BincountAttrs 4))).
Proof.
  assert (dtype no_weights ≠ string_) as Hdt by discriminate.
  assert (0 <= 4) as Hpos by discriminate.
  assert (size no_weights == 0) as Hw by reflexivity.
  split; [exact Hdt|].
  split; [reflexivity|]. split; [exact Hpos|]. split; [exact Hw|].
  exact (proj2 (proj2 (proj2 (proj2 (proj2
           (@bincount_checks dispatcher counts no_weights 4)))))
           Hdt eq_refl Hpos (or_intror Hw)).
Defined.

Lemma erf_dtype_witness :
  (dtype labels = string_ ∧
   @erf_ dispatcher labels = ([], Throws (NotNumeric "x" "erf" string_))) ∧
  (dtype volume = float32 ∧
   @erf_ dispatcher volume
   = ([Ran Erf (ErfInputs volume) NoAttrs], Returns volume)).
Proof.
  split; (split; [reflexivity|]).
  - exact (proj1 (@erf_dtype dispatcher labels) eq_refl).
  - exact (proj1 (proj2 (proj2 (@erf_dtype dispatcher volume))) eq_refl).
Defined.

End OpsSpec.
